(** * DatasetLoader: a shallow embedding of [src/components/dataset_loader.py]

    The module defines one class, [DatasetLoader], with a constructor and
    one method, [load_dataset].  Both talk to the outside world: the
    constructor through [os.path.abspath] and [os.makedirs], the method
    through [print], [os.path.join], [os.path.exists] and the function
    [datasets.load_dataset] of the Hugging Face library.

    The embedding threads an explicit world (working directory, file
    system, state of the remote hub, chronological event log) through a
    small state-and-exception monad.  Python exceptions are values with a
    class, a message and a [__cause__]; [try ... except] picks the first
    clause whose class the raised exception is an instance of.

    Modelling assumptions on the environment, which is not code of the
    repository:
    - [os.path] is [posixpath]; [join], [normpath] and [abspath] follow
      the CPython sources on strings;
    - the file system holds regular files and directories only (no
      symbolic links), the process may read and create everything, and
      path strings are within the limits of the system calls;
    - [print] always succeeds and appends one line to the log;
    - [datasets.load_dataset] is an arbitrary function of its arguments,
      the file system and the hub: it returns a dataset or raises any
      exception, and may change the file system and the hub. *)

From Stdlib Require Import String Ascii List Bool Arith Lia.
From stdpp Require Import base option list strings gmap fin_maps.

Set Warnings "-register-all".

Open Scope string_scope.
Open Scope list_scope.

(** ** Python exceptions *)

(** The built-in exception classes that matter here, with enough of their
    relatives to exercise the order of the [except] clauses. *)
Inductive builtin_exc : Type :=
| BaseException | Exception
| KeyboardInterrupt | SystemExit | GeneratorExit
| OSError | FileNotFoundError | FileExistsError | NotADirectoryError
| PermissionError | TimeoutError
| ConnectionError | ConnectionRefusedError | ConnectionResetError
| ValueError | UnicodeError
| RuntimeError | NotImplementedError
| TypeError | AttributeError | LookupError | KeyError | MemoryError.

#[global] Instance builtin_exc_eq_dec : EqDecision builtin_exc.
Proof. solve_decision. Defined.

(** The direct base class; [BaseException] is the root. *)
Definition builtin_base (b : builtin_exc) : option builtin_exc :=
  match b with
  | BaseException => None
  | Exception | KeyboardInterrupt | SystemExit | GeneratorExit => Some BaseException
  | OSError | ValueError | RuntimeError | TypeError | AttributeError
  | LookupError | MemoryError => Some Exception
  | FileNotFoundError | FileExistsError | NotADirectoryError
  | PermissionError | TimeoutError | ConnectionError => Some OSError
  | ConnectionRefusedError | ConnectionResetError => Some ConnectionError
  | UnicodeError => Some ValueError
  | NotImplementedError => Some RuntimeError
  | KeyError => Some LookupError
  end.

(** The chain of bases of a built-in class, itself first.  The hierarchy
    above is four levels deep, so four steps reach the root. *)
Fixpoint builtin_mro_upto (depth : nat) (b : builtin_exc) : list builtin_exc :=
  b :: match depth, builtin_base b with
       | S depth', Some p => builtin_mro_upto depth' p
       | _, _ => []
       end.

Definition builtin_mro : builtin_exc -> list builtin_exc := builtin_mro_upto 4.

Definition builtin_issubclass (b d : builtin_exc) : bool :=
  bool_decide (d ∈ builtin_mro b).

(** An exception class: a built-in one, or a class defined by a library
    or a user, which has at least one base (every exception class
    descends from [BaseException]). *)
Inductive pyclass : Type :=
| Builtin (b : builtin_exc)
| UserClass (name : string) (base : pyclass) (more_bases : list pyclass).

(** [issubclass c d] for a built-in [d]. *)
Fixpoint issubclass (c : pyclass) (d : builtin_exc) : bool :=
  match c with
  | Builtin b => builtin_issubclass b d
  | UserClass _ base more =>
      issubclass base d || existsb (fun c' => issubclass c' d) more
  end.

(** An exception object: its class, its message ([str(e)]) and its
    [__cause__], set by [raise ... from ...]. *)
Inductive pyexc : Type :=
| PyExc (cls : pyclass) (msg : string) (cause : option pyexc).

Definition exc_class (e : pyexc) : pyclass := let 'PyExc c _ _ := e in c.
Definition exc_str (e : pyexc) : string := let 'PyExc _ m _ := e in m.
Definition exc_cause (e : pyexc) : option pyexc := let 'PyExc _ _ c := e in c.

Definition isinstance (e : pyexc) (d : builtin_exc) : bool :=
  issubclass (exc_class e) d.

(** [X(msg)]: a fresh exception of built-in class [X], no cause yet. *)
Definition new_exc (b : builtin_exc) (msg : string) : pyexc :=
  PyExc (Builtin b) msg None.

(** [raise new from cause] raises [new] with [__cause__] set. *)
Definition with_cause (new cause : pyexc) : pyexc :=
  PyExc (exc_class new) (exc_str new) (Some cause).

(** ** The monad of Python code: state and exceptions *)

Inductive outcome (A : Type) : Type :=
| Return (a : A)
| Raise (e : pyexc).
Arguments Return {A} a.
Arguments Raise {A} e.

Definition Py (S A : Type) : Type := S -> outcome A * S.

Definition ret {S A} (a : A) : Py S A := fun s => (Return a, s).

Definition bind {S A B} (m : Py S A) (k : A -> Py S B) : Py S B :=
  fun s => match m s with
           | (Return a, s') => k a s'
           | (Raise e, s') => (Raise e, s')
           end.

Definition raise {S A} (e : pyexc) : Py S A := fun s => (Raise e, s).

Definition raise_from {S A} (new cause : pyexc) : Py S A :=
  raise (with_cause new cause).

Definition gets {S A} (f : S -> A) : Py S A := fun s => (Return (f s), s).
Definition modify {S} (f : S -> S) : Py S unit := fun s => (Return tt, f s).

Declare Scope py_scope.
Delimit Scope py_scope with py.
Notation "x <- m ;; k" := (bind m (fun x => k))
  (at level 100, m at next level, right associativity) : py_scope.
Notation "m ;;; k" := (bind m (fun _ => k))
  (at level 100, right associativity) : py_scope.

(** One [except C as e: handler] clause. *)
Definition except_clause (S A : Type) : Type := builtin_exc * (pyexc -> Py S A).

(** The clauses are tried in order; an exception no clause matches keeps
    propagating. *)
Fixpoint dispatch {S A} (clauses : list (except_clause S A)) (e : pyexc) : Py S A :=
  match clauses with
  | [] => raise e
  | (c, handler) :: rest =>
      if isinstance e c then handler e else dispatch rest e
  end.

Definition try_except {S A} (body : Py S A) (clauses : list (except_clause S A)) : Py S A :=
  fun s => match body s with
           | (Return a, s') => (Return a, s')
           | (Raise e, s') => dispatch clauses e s'
           end.

(** A computation on the world, run by a method whose state also holds
    [self]. *)
Definition lift_snd {O S A} (m : Py S A) : Py (O * S) A :=
  fun '(o, s) => let '(r, s') := m s in (r, (o, s')).

(** ** posixpath: pure functions on path strings *)

Definition sep : ascii := "/"%char.

Definition startswith_sep (s : string) : bool :=
  match s with
  | String c _ => bool_decide (c = sep)
  | EmptyString => false
  end.

Fixpoint endswith_sep (s : string) : bool :=
  match s with
  | EmptyString => false
  | String c EmptyString => bool_decide (c = sep)
  | String _ s' => endswith_sep s'
  end.

(** [os.path.join(a, b)] of posixpath, for two arguments. *)
Definition os_path_join (a b : string) : string :=
  if startswith_sep b then b
  else if bool_decide (a = "") || endswith_sep a then a +:+ b
  else a +:+ "/" +:+ b.

(** [s.split('/')]: never empty, one more piece than separators. *)
Fixpoint split_sep (s : string) : list string :=
  match s with
  | EmptyString => [""]
  | String c s' =>
      if bool_decide (c = sep) then "" :: split_sep s'
      else match split_sep s' with
           | piece :: pieces => String c piece :: pieces
           | [] => [String c ""]
           end
  end.

(** ['/'.join(comps)]. *)
Fixpoint join_sep (comps : list string) : string :=
  match comps with
  | [] => ""
  | [c] => c
  | c :: rest => c +:+ "/" +:+ join_sep rest
  end.

(** POSIX treats exactly two leading slashes specially, one or three and
    more as one. *)
Definition initial_slashes (path : string) : nat :=
  match path with
  | String c1 (String c2 (String c3 _)) =>
      if bool_decide (c1 = sep) then
        if bool_decide (c2 = sep) && negb (bool_decide (c3 = sep)) then 2 else 1
      else 0
  | String c1 (String c2 EmptyString) =>
      if bool_decide (c1 = sep) then if bool_decide (c2 = sep) then 2 else 1 else 0
  | String c1 EmptyString => if bool_decide (c1 = sep) then 1 else 0
  | EmptyString => 0
  end.

(** The loop of [normpath] over the pieces; [new_comps] is kept in
    reverse, its head is Python's [new_comps[-1]]. *)
Fixpoint normpath_loop (slashes : nat) (new_comps : list string) (comps : list string)
  : list string :=
  match comps with
  | [] => rev new_comps
  | comp :: rest =>
      if bool_decide (comp = "") || bool_decide (comp = ".") then
        normpath_loop slashes new_comps rest
      else if negb (bool_decide (comp = ".."))
              || (bool_decide (slashes = 0) && bool_decide (new_comps = []))
              || match new_comps with
                 | last :: _ => bool_decide (last = "..")
                 | [] => false
                 end
      then normpath_loop slashes (comp :: new_comps) rest
      else normpath_loop slashes (tl new_comps) rest
  end.

Fixpoint slashes_string (n : nat) : string :=
  match n with
  | 0 => ""
  | S n' => String sep (slashes_string n')
  end.

Definition os_path_normpath (path : string) : string :=
  if bool_decide (path = "") then "."
  else
    let slashes := initial_slashes path in
    let comps := normpath_loop slashes [] (split_sep path) in
    let path' := slashes_string slashes +:+ join_sep comps in
    if bool_decide (path' = "") then "." else path'.

(** [os.getcwd()] renders the working directory, held as its components. *)
Definition render_cwd (cwd : list string) : string := "/" +:+ join_sep cwd.

(** [os.path.abspath(path)] in working directory [cwd]. *)
Definition os_path_abspath (cwd : list string) (path : string) : string :=
  os_path_normpath
    (if startswith_sep path then path else os_path_join (render_cwd cwd) path).

(** Does a name contain the separator? *)
Fixpoint has_sep (s : string) : bool :=
  match s with
  | EmptyString => false
  | String c s' => bool_decide (c = sep) || has_sep s'
  end.

(** A proper name of a directory entry: not empty, not [.] or [..], and
    without separator. *)
Definition proper_name (n : string) : Prop :=
  n <> "" /\ n <> "." /\ n <> ".." /\ has_sep n = false.

(** The names in a path string, from left to right. *)
Definition components (path : string) : list string :=
  filter (fun n => n <> "") (split_sep path).

(** An empty piece or a proper name: what the pieces of a normal
    absolute path are. *)
Definition piece (n : string) : Prop := n = "" \/ proper_name n.

(** ** The operating system: working directory and file system *)

Inductive node_kind : Type := File | Dir.

#[global] Instance node_kind_eq_dec : EqDecision node_kind.
Proof. solve_decision. Defined.

(** A canonical path: the names from the root down, without [.], [..]
    or empty names. *)
Abbreviation cpath := (list string).

(** The arguments of one call of [datasets.load_dataset]: its first
    parameter [path] (a local path or a hub name), [split], and
    [cache_dir] when it is passed. *)
Record load_args : Type := LoadArgs {
  arg_path : string;
  arg_split : string;
  arg_cache_dir : option string
}.

(** What an observer sees happen, in order. *)
Inductive event : Type :=
| Printed (line : string)
| MadeDir (p : cpath)
| LibraryCall (args : load_args).

(** The world: the working directory, the entries of the file system
    (the root is always a directory), the state of the remote hub, which
    only the library reads and writes, and the log of events. *)
Record world {Hub : Type} : Type := World {
  w_cwd : cpath;
  w_fs : gmap cpath node_kind;
  w_hub : Hub;
  w_log : list event
}.
Arguments world Hub : clear implicits.
Arguments World {Hub} w_cwd w_fs w_hub w_log.

Definition kind_at (fs : gmap cpath node_kind) (p : cpath) : option node_kind :=
  match p with
  | [] => Some Dir
  | _ => fs !! p
  end.

(** Every entry of [fs] is an entry of [fs'], of the same kind. *)
Definition fs_extends (fs fs' : gmap cpath node_kind) : Prop :=
  forall p k, kind_at fs p = Some k -> kind_at fs' p = Some k.

(** Path resolution by the kernel, name by name from the directory
    [cur].  Every step, also an empty name (a doubled or trailing slash)
    or a dot, needs [cur] to be a directory; the entry reached in the end
    may be of any kind. *)
Fixpoint walk (fs : gmap cpath node_kind) (cur : cpath) (names : list string)
  : option cpath :=
  match names with
  | [] => match kind_at fs cur with
          | Some _ => Some cur
          | None => None
          end
  | name :: rest =>
      match kind_at fs cur with
      | Some Dir =>
          if bool_decide (name = "") || bool_decide (name = ".") then walk fs cur rest
          else if bool_decide (name = "..") then walk fs (removelast cur) rest
          else walk fs (cur ++ [name]) rest
      | _ => None
      end
  end.

(** The entry a path string names, if any: [stat] without its errors.
    The empty path names nothing. *)
Definition namei {Hub} (w : world Hub) (path : string) : option cpath :=
  if bool_decide (path = "") then None
  else walk (w_fs w) (if startswith_sep path then [] else w_cwd w) (split_sep path).

Definition stat_kind {Hub} (w : world Hub) (path : string) : option node_kind :=
  p ← namei w path; kind_at (w_fs w) p.

(** [os.path.exists(path)]: true for any entry, whatever its kind. *)
Definition os_path_exists {Hub} (path : string) : Py (world Hub) bool :=
  gets (fun w => bool_decide (is_Some (namei w path))).

(** [os.path.isdir(path)]. *)
Definition os_path_isdir {Hub} (path : string) : Py (world Hub) bool :=
  gets (fun w => bool_decide (stat_kind w path = Some Dir)).

(** [os.getcwd()] and [os.path.abspath(path)]. *)
Definition os_getcwd {Hub} : Py (world Hub) string :=
  gets (fun w => render_cwd (w_cwd w)).

Definition abspath {Hub} (path : string) : Py (world Hub) string :=
  gets (fun w => os_path_abspath (w_cwd w) path).

Definition log_event {Hub} (ev : event) : Py (world Hub) unit :=
  modify (fun w => World (w_cwd w) (w_fs w) (w_hub w) (w_log w ++ [ev])).

(** [print(line)]. *)
Definition print {Hub} (line : string) : Py (world Hub) unit :=
  log_event (Printed line).

(** [mkdir] of an absent entry inside an existing directory. *)
Definition os_mkdir {Hub} (p : cpath) : Py (world Hub) unit :=
  modify (fun w => World (w_cwd w) (<[p := Dir]> (w_fs w)) (w_hub w)
                         (w_log w ++ [MadeDir p])).

(** Is some name left that descends further? *)
Definition descends (names : list string) : bool :=
  existsb (fun n => negb (bool_decide (n = "") || bool_decide (n = "."))) names.

(** [os.makedirs(name, exist_ok=True)], name by name from the directory
    [cur]: directories that are there are entered, missing ones are
    made, and an entry of another kind in the way is an error,
    [FileExistsError] when it is the target itself and
    [NotADirectoryError] when the path goes on below it. *)
Fixpoint makedirs_from {Hub} (name : string) (cur : cpath) (names : list string)
  : Py (world Hub) unit :=
  match names with
  | [] => ret tt
  | n :: rest =>
      if bool_decide (n = "") || bool_decide (n = ".") then makedirs_from name cur rest
      else if bool_decide (n = "..") then makedirs_from name (removelast cur) rest
      else
        let child := cur ++ [n] in
        (k <- gets (fun w => kind_at (w_fs w) child) ;;
         match k with
         | Some Dir => makedirs_from name child rest
         | Some File =>
             raise (new_exc (if descends rest then NotADirectoryError else FileExistsError)
                            name)
         | None => os_mkdir child ;;; makedirs_from name child rest
         end)%py
  end.

Definition os_makedirs_exist_ok {Hub} (name : string) : Py (world Hub) unit :=
  if bool_decide (name = "") then raise (new_exc FileNotFoundError name)
  else
    (start <- gets (fun w => if startswith_sep name then [] else w_cwd w) ;;
     makedirs_from name start (split_sep name))%py.

(** ** The external library *)

(** [datasets.load_dataset], the one collaborator.  Nothing is assumed
    about it: given its arguments, the file system and the hub, it
    returns a dataset or raises, and leaves a file system and a hub. *)
Class DatasetsLibrary : Type := {
  Dataset : Type;
  Hub : Type;
  datasets_load_dataset :
    load_args -> gmap cpath node_kind * Hub ->
    outcome Dataset * (gmap cpath node_kind * Hub)
}.

(** One call of the library from the program: logged, then run. *)
Definition call_datasets_load_dataset `{DatasetsLibrary} (args : load_args)
  : Py (world Hub) Dataset :=
  fun w =>
    let '(r, (fs', hub')) := datasets_load_dataset args (w_fs w, w_hub w) in
    (r, World (w_cwd w) fs' hub' (w_log w ++ [LibraryCall args])).

(** ** The class DatasetLoader *)

(** The instance: its one attribute. *)
Record DatasetLoader : Type := { local_cache_dir : string }.

(** A method runs on [self] and the world. *)
Abbreviation Method A := (Py (DatasetLoader * world Hub) A).

(** [self.local_cache_dir]. *)
Definition self_local_cache_dir {W} : Py (DatasetLoader * W) string :=
  gets (fun '(self, _) => local_cache_dir self).

(** [self.local_cache_dir = value]. *)
Definition set_self_local_cache_dir {W} (value : string) : Py (DatasetLoader * W) unit :=
  modify (fun '(_, w) => ({| local_cache_dir := value |}, w)).

(** The defaults of the two optional parameters, lines 12 and 22; a
    caller that leaves an argument out passes these. *)
Definition default_local_cache_dir : string := "C:\Users\batti\llm-evaluation\data".
Definition default_split : string := "test".

(** [DatasetLoader.__init__(self, local_cache_dir)]. *)
Definition __init__ `{DatasetsLibrary} (local_cache_dir : string) : Method unit :=
  (absolute <- lift_snd (abspath local_cache_dir) ;;
   set_self_local_cache_dir absolute ;;;
   dir <- self_local_cache_dir ;;
   lift_snd (os_makedirs_exist_ok dir))%py.

(** [DatasetLoader(local_cache_dir)]: [__init__] on a fresh instance; the
    expression has a value only when [__init__] returns. *)
Definition new_DatasetLoader `{DatasetsLibrary} (local_cache_dir : string)
  : Py (world Hub) DatasetLoader :=
  fun w =>
    match __init__ local_cache_dir ({| local_cache_dir := "" |}, w) with
    | (Return _, (self, w')) => (Return self, w')
    | (Raise e, (_, w')) => (Raise e, w')
    end.

(** [DatasetLoader.load_dataset(self, dataset_name, split)]. *)
Definition load_dataset `{DatasetsLibrary} (dataset_name split : string)
  : Method Dataset :=
  try_except
    (lift_snd (print ("Attempting to load dataset: " +:+ dataset_name
                      +:+ ", split: " +:+ split)) ;;;
     cache_dir <- self_local_cache_dir ;;
     let dataset_path := os_path_join cache_dir dataset_name in
     found <- lift_snd (os_path_exists dataset_path) ;;
     if found : bool then
       lift_snd (print ("Loading dataset locally from: " +:+ dataset_path)) ;;;
       lift_snd (call_datasets_load_dataset (LoadArgs dataset_path split None))
     else
       lift_snd (print ("Dataset not found locally. Attempting to download "
                        +:+ dataset_name +:+ " from Hugging Face Hub...")) ;;;
       cache_dir' <- self_local_cache_dir ;;
       lift_snd (call_datasets_load_dataset
                   (LoadArgs dataset_name split (Some cache_dir'))))%py
    [ (FileNotFoundError, fun fnf_error =>
         lift_snd (print ("Error: Dataset '" +:+ dataset_name
                          +:+ "' not found locally or remotely.")) ;;;
         raise_from
           (new_exc FileNotFoundError
              ("Dataset '" +:+ dataset_name
               +:+ "' not available locally or on Hugging Face Hub."))
           fnf_error)%py;
      (ConnectionError, fun conn_error =>
         lift_snd (print ("Error: Unable to connect to Hugging Face Hub to download '"
                          +:+ dataset_name +:+ "'.")) ;;;
         raise_from
           (new_exc ConnectionError
              ("Failed to download dataset '" +:+ dataset_name
               +:+ "' due to connectivity issues."))
           conn_error)%py;
      (ValueError, fun val_error =>
         lift_snd (print ("Error: Invalid dataset name or split for '"
                          +:+ dataset_name +:+ "'.")) ;;;
         raise_from
           (new_exc ValueError
              ("Dataset '" +:+ dataset_name +:+ "' or split '" +:+ split
               +:+ "' is invalid."))
           val_error)%py;
      (Exception, fun e =>
         lift_snd (print ("Unexpected error while loading dataset '" +:+ dataset_name
                          +:+ "': " +:+ exc_str e)) ;;;
         raise_from
           (new_exc RuntimeError
              ("An unexpected error occurred while loading dataset '"
               +:+ dataset_name +:+ "'."))
           e)%py ].

(** ** Observations on a run *)

(** The candidate local path of line 40. *)
Definition dataset_path (self : DatasetLoader) (dataset_name : string) : string :=
  os_path_join (local_cache_dir self) dataset_name.

(** The arguments of the two calls of the library, lines 45 and 49. *)
Definition local_call (self : DatasetLoader) (dataset_name split : string) : load_args :=
  LoadArgs (dataset_path self dataset_name) split None.

Definition remote_call (self : DatasetLoader) (dataset_name split : string) : load_args :=
  LoadArgs dataset_name split (Some (local_cache_dir self)).

(** The events a run added to the log: what is left of [after] behind
    [before]. *)
Definition new_events (before after : list event) : list event :=
  drop (length before) after.

Definition library_calls (log : list event) : list load_args :=
  omap (fun ev => match ev with LibraryCall a => Some a | _ => None end) log.

Definition printed_lines (log : list event) : list string :=
  omap (fun ev => match ev with Printed l => Some l | _ => None end) log.

Definition made_dirs (log : list event) : list cpath :=
  omap (fun ev => match ev with MadeDir p => Some p | _ => None end) log.

Definition is_printed (ev : event) : bool :=
  match ev with Printed _ => true | _ => false end.

Definition is_library_call (ev : event) : bool :=
  match ev with LibraryCall _ => true | _ => false end.

(** [sub] occurs in [s]. *)
Definition occurs_in (sub s : string) : Prop :=
  exists before after, s = before +:+ sub +:+ after.

(** The four kinds of failure [load_dataset] raises itself. *)
Inductive failure_kind : Type :=
| NotFound | Connectivity | InvalidArgument | Unexpected.

Definition kind_class (k : failure_kind) : builtin_exc :=
  match k with
  | NotFound => FileNotFoundError
  | Connectivity => ConnectionError
  | InvalidArgument => ValueError
  | Unexpected => RuntimeError
  end.

(** The kind of an exception: the class of its object, when that is one
    of the four classes itself. *)
Definition kind_of_exc (e : pyexc) : option failure_kind :=
  match exc_class e with
  | Builtin FileNotFoundError => Some NotFound
  | Builtin ConnectionError => Some Connectivity
  | Builtin ValueError => Some InvalidArgument
  | Builtin RuntimeError => Some Unexpected
  | _ => None
  end.

(** The call one run makes: line 45 when the candidate path names an
    entry, line 49 otherwise. *)
Definition chosen_call {Hub} (self : DatasetLoader) (w : world Hub)
    (dataset_name split : string) : load_args :=
  if bool_decide (is_Some (namei w (dataset_path self dataset_name)))
  then local_call self dataset_name split
  else remote_call self dataset_name split.

(** What the library answers to that call. *)
Definition library_outcome `{DatasetsLibrary} (self : DatasetLoader) (w : world Hub)
    (dataset_name split : string) : outcome Dataset :=
  fst (datasets_load_dataset (chosen_call self w dataset_name split) (w_fs w, w_hub w)).

(** The clause that catches an exception, in the order of lines 51, 57,
    63 and 67; [None] when no clause does. *)
Definition classify (e : pyexc) : option failure_kind :=
  if isinstance e FileNotFoundError then Some NotFound
  else if isinstance e ConnectionError then Some Connectivity
  else if isinstance e ValueError then Some InvalidArgument
  else if isinstance e Exception then Some Unexpected
  else None.

(** A caller that calls [load_dataset] once per request, going on after
    a failure; the state it ends in. *)
Definition load_datasets `{DatasetsLibrary} (requests : list (string * string))
    (st : DatasetLoader * world Hub) : DatasetLoader * world Hub :=
  fold_left (fun st' '(dataset_name, split) => snd (load_dataset dataset_name split st'))
            requests st.

(** ** Further observations *)

(** The directories below [cur] that lead to [cur ++ names], the
    shallowest first. *)
Fixpoint descents (cur : cpath) (names : list string) : list cpath :=
  match names with
  | [] => []
  | n :: rest => (cur ++ [n]) :: descents (cur ++ [n]) rest
  end.

(** The message of the exception each clause raises, lines 54, 60, 65
    and 70. *)
Definition failure_message (k : failure_kind) (dataset_name split : string) : string :=
  match k with
  | NotFound =>
      "Dataset '" +:+ dataset_name +:+ "' not available locally or on Hugging Face Hub."
  | Connectivity =>
      "Failed to download dataset '" +:+ dataset_name +:+ "' due to connectivity issues."
  | InvalidArgument =>
      "Dataset '" +:+ dataset_name +:+ "' or split '" +:+ split +:+ "' is invalid."
  | Unexpected =>
      "An unexpected error occurred while loading dataset '" +:+ dataset_name +:+ "'."
  end.

(** The line each clause prints, lines 52, 58, 64 and 68. *)
Definition failure_line (k : failure_kind) (dataset_name : string) (e : pyexc) : string :=
  match k with
  | NotFound => "Error: Dataset '" +:+ dataset_name +:+ "' not found locally or remotely."
  | Connectivity =>
      "Error: Unable to connect to Hugging Face Hub to download '" +:+ dataset_name +:+ "'."
  | InvalidArgument =>
      "Error: Invalid dataset name or split for '" +:+ dataset_name +:+ "'."
  | Unexpected =>
      "Unexpected error while loading dataset '" +:+ dataset_name +:+ "': " +:+ exc_str e
  end.

(** [obj.method(...)] from code that holds [obj] in a local variable. *)
Definition call_method {W A} (obj : DatasetLoader) (m : Py (DatasetLoader * W) A)
  : Py W A :=
  fun w => let '(r, (_, w')) := m (obj, w) in (r, w').

(** The script under [if __name__ == "__main__"], lines 74 to 77.
    [str_dataset] is [str] on what the library returns. *)
Definition main `{DatasetsLibrary} (str_dataset : Dataset -> string)
  : Py (world Hub) unit :=
  (loader <- new_DatasetLoader default_local_cache_dir ;;
   dataset <- call_method loader (load_dataset "EdinburghNLP/xsum" "test") ;;
   print (str_dataset dataset))%py.

(** ** A scripted library, for closed examples *)

(** A library whose every call has the outcome [r] and touches nothing;
    its datasets are strings. *)
Definition scripted_library (r : outcome string) : DatasetsLibrary :=
  {| Dataset := string; Hub := unit;
     datasets_load_dataset := fun _ st => (r, st) |}.

(** A world with working directory [/home/user], the directories
    [/home], [/home/user], [/data], [/data/squad] and the regular file
    [/data/notes.txt]. *)
Definition sample_fs : gmap cpath node_kind :=
  <[ ["data"; "notes.txt"] := File ]>
  (<[ ["data"; "squad"] := Dir ]>
  (<[ ["data"] := Dir ]>
  (<[ ["home"; "user"] := Dir ]>
  (<[ ["home"] := Dir ]> ∅)))).

Definition sample_world : world unit := World ["home"; "user"] sample_fs tt [].

Definition data_loader : DatasetLoader := {| local_cache_dir := "/data" |}.

(** Libraries that always return, that reject the split, that find
    nothing, and that are interrupted from the keyboard. *)
Definition returning_library : DatasetsLibrary := scripted_library (Return "rows").

Definition rejecting_library : DatasetsLibrary :=
  scripted_library (Raise (new_exc ValueError "Unknown split")).

Definition empty_dataset_error : pyexc :=
  PyExc (UserClass "EmptyDatasetError" (Builtin FileNotFoundError) [])
        "no data files" None.

Definition finding_nothing_library : DatasetsLibrary :=
  scripted_library (Raise empty_dataset_error).

Definition keyboard_interrupt : pyexc := new_exc KeyboardInterrupt "".

Definition interrupted_library : DatasetsLibrary :=
  scripted_library (Raise keyboard_interrupt).

(** A library whose connection is reset by the peer. *)
Definition resetting_library : DatasetsLibrary :=
  scripted_library (Raise (new_exc ConnectionResetError "Connection reset by peer")).

(** A library whose downloads break off: asked to download, it makes the
    directory of the dataset under [cache_dir] and then fails; asked for
    a local path, it returns. *)
Definition breaking_off_library : DatasetsLibrary :=
  {| Dataset := string; Hub := unit;
     datasets_load_dataset := fun args '(fs, hub) =>
       match arg_cache_dir args with
       | Some dir =>
           (Raise (new_exc ConnectionError "Connection broken"),
            (<[components dir ++ components (arg_path args) := Dir]> fs, hub))
       | None => (Return "rows", (fs, hub))
       end |}.

(** * Facts *)

(** ** Strings *)

Lemma string_app_cons (ch : ascii) (a b : string) :
  String ch a +:+ b = String ch (a +:+ b).
Proof. reflexivity. Qed.

Lemma string_app_nil (b : string) : "" +:+ b = b.
Proof. reflexivity. Qed.

Lemma string_app_assoc (a b c : string) : (a +:+ b) +:+ c = a +:+ b +:+ c.
Proof.
  induction a as [|ch a IH]; [reflexivity |].
  rewrite !string_app_cons. now rewrite IH.
Qed.

Lemma string_app_empty_r (a : string) : a +:+ "" = a.
Proof.
  induction a as [|ch a IH]; [reflexivity |].
  rewrite string_app_cons. now rewrite IH.
Qed.

Lemma occurs_in_middle (a sub b : string) : occurs_in sub (a +:+ sub +:+ b).
Proof. now exists a, b. Qed.

Lemma occurs_in_app_l (sub a b : string) : occurs_in sub b -> occurs_in sub (a +:+ b).
Proof.
  intros (pre & post & ->). exists (a +:+ pre), post.
  now rewrite string_app_assoc.
Qed.

Lemma not_occurs_in_empty (sub : string) : sub <> "" -> ~ occurs_in sub "".
Proof.
  intros Hne (pre & post & Heq). destruct pre as [|ch pre].
  - destruct sub; [congruence | discriminate].
  - discriminate.
Qed.

(** ** Splitting and joining paths *)

Lemma split_sep_nonempty (s : string) : split_sep s <> [].
Proof.
  induction s as [| c s IH]; [discriminate |]. cbn [split_sep].
  destruct (bool_decide (c = sep)); [discriminate |].
  destruct (split_sep s); discriminate.
Qed.

Lemma split_sep_sep (s : string) : split_sep (String sep s) = "" :: split_sep s.
Proof. reflexivity. Qed.

Lemma split_sep_other (c : ascii) (s : string) :
  c <> sep ->
  split_sep (String c s) = String c (hd "" (split_sep s)) :: tl (split_sep s).
Proof.
  intros Hc. cbn [split_sep]. rewrite (bool_decide_eq_false_2 _ Hc).
  pose proof (split_sep_nonempty s). now destruct (split_sep s).
Qed.

Lemma split_sep_no_sep (s : string) : Forall (fun n => has_sep n = false) (split_sep s).
Proof.
  induction s as [| c s IH]; [repeat constructor |]. cbn [split_sep].
  destruct (bool_decide (c = sep)) eqn:Hc; [now constructor |].
  destruct (split_sep s) as [| piece pieces]; [repeat constructor; cbn; now rewrite Hc |].
  inversion IH; subst. constructor; [| assumption]. cbn. now rewrite Hc.
Qed.

(** A name without separator in front of a separator is the first piece. *)
Lemma split_sep_name_sep (n rest : string) :
  has_sep n = false -> split_sep (n +:+ String sep rest) = n :: split_sep rest.
Proof.
  induction n as [| c n IH]; intros Hn; [reflexivity |].
  cbn [has_sep] in Hn. apply orb_false_iff in Hn as [Hc Hn].
  rewrite string_app_cons. cbn [split_sep]. rewrite Hc, (IH Hn). reflexivity.
Qed.

Lemma split_sep_name (n : string) : has_sep n = false -> split_sep n = [n].
Proof.
  induction n as [| c n IH]; intros Hn; [reflexivity |].
  cbn [has_sep] in Hn. apply orb_false_iff in Hn as [Hc Hn].
  cbn [split_sep]. now rewrite Hc, (IH Hn).
Qed.

Lemma split_sep_join_sep (comps : list string) :
  comps <> [] -> Forall (fun n => has_sep n = false) comps ->
  split_sep (join_sep comps) = comps.
Proof.
  induction comps as [| c comps IH]; intros Hne Hall; [congruence |].
  inversion Hall as [| ? ? Hc Hrest]; subst.
  destruct comps as [| c' comps].
  - now apply split_sep_name.
  - change (join_sep (c :: c' :: comps)) with (c +:+ String sep (join_sep (c' :: comps))).
    rewrite (split_sep_name_sep _ _ Hc), IH; [reflexivity | discriminate | exact Hrest].
Qed.

Lemma split_sep_slashes (k : nat) (s : string) :
  split_sep (slashes_string k +:+ s) = replicate k "" ++ split_sep s.
Proof.
  induction k as [| k IH]; [reflexivity |].
  cbn [slashes_string replicate]. rewrite string_app_cons, split_sep_sep, IH. reflexivity.
Qed.

(** A trailing slash adds one empty piece. *)
Lemma split_sep_trailing (s : string) : split_sep (s +:+ "/") = split_sep s ++ [""].
Proof.
  induction s as [| c s IH]; [reflexivity |].
  rewrite string_app_cons. cbn [split_sep]. rewrite IH.
  destruct (bool_decide (c = sep)); [reflexivity |].
  pose proof (split_sep_nonempty s). now destruct (split_sep s).
Qed.

Lemma startswith_sep_app (a b : string) :
  a <> "" -> startswith_sep (a +:+ b) = startswith_sep a.
Proof. now destruct a. Qed.

Lemma startswith_sep_nonempty (a : string) : startswith_sep a = true -> a <> "".
Proof. now destruct a. Qed.

(** ** normpath *)

Lemma normpath_loop_proper (slashes : nat) (comps new_comps : list string) :
  slashes <> 0 ->
  Forall (fun n => has_sep n = false) comps ->
  Forall proper_name new_comps ->
  Forall proper_name (normpath_loop slashes new_comps comps).
Proof.
  intros Hs. revert new_comps.
  induction comps as [| comp comps IH]; intros new_comps Hsep Hnew; cbn [normpath_loop].
  - now apply Forall_rev.
  - inversion Hsep as [| ? ? Hcomp Hcomps]; subst.
    destruct (bool_decide (comp = "")) eqn:He; [now apply IH |].
    destruct (bool_decide (comp = ".")) eqn:Hd; [now apply IH |].
    cbn [orb]. rewrite (bool_decide_eq_false_2 (slashes = 0) Hs). cbn [andb orb].
    apply bool_decide_eq_false in He, Hd.
    assert (match new_comps with
            | last :: _ => bool_decide (last = "..")
            | [] => false
            end = false) as ->.
    { destruct new_comps as [| last ?]; [reflexivity |].
      inversion Hnew as [| ? ? (_ & _ & Hlast & _) _]; subst.
      now apply bool_decide_eq_false. }
    rewrite orb_false_r.
    destruct (bool_decide (comp = "..")) eqn:Hdd; cbn [negb].
    + apply IH; [assumption |]. destruct new_comps; [constructor |].
      now inversion Hnew.
    + apply bool_decide_eq_false in Hdd. apply IH; [assumption |].
      constructor; [| assumption]. repeat split; assumption.
Qed.

Lemma initial_slashes_startswith (path : string) :
  startswith_sep path = true -> initial_slashes path <> 0.
Proof.
  destruct path as [| c1 [| c2 [| c3 path]]]; cbn; try discriminate;
    intros ->; repeat (destruct (bool_decide _)); cbn; discriminate.
Qed.

Lemma slashes_string_nonempty k s : k <> 0 -> slashes_string k +:+ s <> "".
Proof. destruct k; [congruence | discriminate]. Qed.

(** The normal form of a path that starts with a slash: one or two
    slashes, then proper names with single slashes between them. *)
Lemma os_path_normpath_absolute (path : string) :
  startswith_sep path = true ->
  exists k comps,
    k <> 0 /\ Forall proper_name comps
    /\ os_path_normpath path = slashes_string k +:+ join_sep comps.
Proof.
  intros Habs. unfold os_path_normpath.
  rewrite bool_decide_eq_false_2 by now apply startswith_sep_nonempty.
  pose proof (initial_slashes_startswith path Habs) as Hk.
  exists (initial_slashes path), (normpath_loop (initial_slashes path) [] (split_sep path)).
  split; [exact Hk |]. split.
  - apply normpath_loop_proper; [exact Hk | apply split_sep_no_sep | constructor].
  - cbv zeta. rewrite bool_decide_eq_false_2; [reflexivity |].
    now apply slashes_string_nonempty.
Qed.

Lemma os_path_join_absolute (a b : string) :
  startswith_sep a = true -> startswith_sep (os_path_join a b) = true.
Proof.
  intros Ha. unfold os_path_join. destruct (startswith_sep b) eqn:Hb; [exact Hb |].
  pose proof (startswith_sep_nonempty a Ha) as Hne.
  destruct (_ || _); now rewrite startswith_sep_app.
Qed.

Lemma os_path_abspath_form (cwd : list string) (path : string) :
  exists k comps,
    k <> 0 /\ Forall proper_name comps
    /\ os_path_abspath cwd path = slashes_string k +:+ join_sep comps.
Proof.
  unfold os_path_abspath. apply os_path_normpath_absolute.
  destruct (startswith_sep path) eqn:Hp; [exact Hp |].
  now apply os_path_join_absolute.
Qed.

(** The pieces of an absolute path in normal form: empty ones in front
    (and one more for the root itself), then the names. *)
Lemma split_sep_normal (k : nat) (comps : list string) :
  Forall proper_name comps ->
  split_sep (slashes_string k +:+ join_sep comps)
  = replicate k "" ++ (if decide (comps = []) then [""] else comps).
Proof.
  intros Hcomps. rewrite split_sep_slashes. f_equal.
  destruct (decide (comps = [])) as [-> | Hne]; [reflexivity |].
  apply split_sep_join_sep; [exact Hne |].
  eapply Forall_impl; [exact Hcomps |]. now intros n (_ & _ & _ & Hn).
Qed.

Lemma components_normal (k : nat) (comps : list string) :
  Forall proper_name comps ->
  components (slashes_string k +:+ join_sep comps) = comps.
Proof.
  intros Hcomps. unfold components. rewrite (split_sep_normal _ _ Hcomps).
  rewrite filter_app.
  assert (filter (fun n : string => n <> "") (replicate k "") = []) as ->.
  { induction k as [| k IH]; [reflexivity |]. cbn [replicate].
    rewrite filter_cons_False; [exact IH | now intros ?]. }
  cbn [app]. destruct (decide (comps = [])) as [-> | Hne]; [reflexivity |].
  clear Hne. induction Hcomps as [| n comps (Hn & _) _ IH]; [reflexivity |].
  rewrite filter_cons_True by exact Hn. now rewrite IH.
Qed.

(** ** Resolution *)

Lemma walk_skip fs cur rest :
  kind_at fs cur = Some Dir -> walk fs cur ("" :: rest) = walk fs cur rest.
Proof. intros Hk. cbn [walk]. now rewrite Hk. Qed.

Lemma walk_enter fs cur n rest :
  proper_name n -> kind_at fs cur = Some Dir ->
  walk fs cur (n :: rest) = walk fs (cur ++ [n]) rest.
Proof.
  intros (He & Hd & Hdd & _) Hk. cbn [walk]. rewrite Hk.
  now rewrite !bool_decide_eq_false_2.
Qed.

(** Resolving [a ++ b] is resolving [a], then [b] from where [a] led. *)
Lemma walk_app fs (a b : list string) : forall cur,
  walk fs cur (a ++ b) = q ← walk fs cur a; walk fs q b.
Proof.
  induction a as [| n a IH]; intros cur; cbn [app walk].
  - destruct (kind_at fs cur) eqn:Hk; [reflexivity |].
    cbn. destruct b; cbn [walk]; now rewrite Hk.
  - destruct (kind_at fs cur) as [[] |]; try reflexivity.
    repeat (destruct (bool_decide _); cbn [orb]); apply IH.
Qed.

(** What resolution reaches exists. *)
Lemma walk_exists fs names : forall cur q,
  walk fs cur names = Some q -> is_Some (kind_at fs q).
Proof.
  induction names as [| n names IH]; intros cur q; cbn [walk].
  - destruct (kind_at fs cur) eqn:Hk; [| discriminate].
    intros [= <-]. rewrite Hk. eauto.
  - destruct (kind_at fs cur) as [[] |]; try discriminate.
    repeat (destruct (bool_decide _); cbn [orb]); apply IH.
Qed.

(** Resolution that ends in a directory started in one. *)
Lemma walk_from_dir fs names cur q :
  walk fs cur names = Some q -> kind_at fs q = Some Dir -> kind_at fs cur = Some Dir.
Proof.
  destruct names as [| n names]; cbn [walk].
  - destruct (kind_at fs cur) eqn:Hk; [| discriminate]. intros [= <-]. congruence.
  - now destruct (kind_at fs cur) as [[] |].
Qed.

(** Pieces lead down to the names among them. *)
Lemma walk_pieces fs names : forall cur q,
  Forall piece names -> walk fs cur names = Some q ->
  q = cur ++ filter (fun n => n <> "") names.
Proof.
  induction names as [| n names IH]; intros cur q Hall; cbn [walk].
  - destruct (kind_at fs cur); [| discriminate]. intros [= <-].
    now rewrite filter_nil, app_nil_r.
  - inversion Hall as [| ? ? Hn Hnames]; subst.
    destruct (kind_at fs cur) as [[] |] eqn:Hk; try discriminate.
    destruct Hn as [-> | Hn].
    + rewrite filter_cons_False by (now intros ?). cbn [bool_decide orb].
      change (bool_decide ("" = "")) with true. cbn [orb]. now apply IH.
    + pose proof Hn as (He & Hd & Hdd & _).
      rewrite !bool_decide_eq_false_2 by assumption. cbn [orb].
      intros Hw. rewrite (IH _ _ Hnames Hw), filter_cons_True by exact He.
      now rewrite <- app_assoc.
Qed.

(** ** Making directories *)

Lemma fs_extends_refl fs : fs_extends fs fs.
Proof. now intros p k. Qed.

Lemma fs_extends_trans fs1 fs2 fs3 :
  fs_extends fs1 fs2 -> fs_extends fs2 fs3 -> fs_extends fs1 fs3.
Proof. intros H12 H23 p k Hk. now apply H23, H12. Qed.

Lemma kind_at_insert_eq fs (p : cpath) k :
  p <> [] -> kind_at (<[p := k]> fs) p = Some k.
Proof. destruct p; [congruence |]. intros _. cbn [kind_at]. apply lookup_insert_eq. Qed.

Lemma kind_at_insert_ne fs (p q : cpath) k :
  p <> q -> kind_at (<[p := k]> fs) q = kind_at fs q.
Proof. intros Hne. destruct q; [reflexivity |]. cbn [kind_at]. now apply lookup_insert_ne. Qed.

Lemma fs_extends_insert fs (p : cpath) k :
  kind_at fs p = None -> fs_extends fs (<[p := k]> fs).
Proof.
  intros Hnone q kq Hq. rewrite kind_at_insert_ne; [exact Hq |]. congruence.
Qed.

Lemma child_not_root (cur : cpath) (n : string) : cur ++ [n] <> [].
Proof. now destruct cur. Qed.

Section Makedirs.
Context {Hub : Type}.
Implicit Types (w : world Hub) (cur : cpath) (names : list string).

Lemma makedirs_from_skip name cur names :
  makedirs_from (Hub:=Hub) name cur ("" :: names) = makedirs_from name cur names.
Proof. reflexivity. Qed.

Lemma makedirs_from_enter name cur n names w :
  proper_name n ->
  makedirs_from name cur (n :: names) w
  = match kind_at (w_fs w) (cur ++ [n]) with
    | Some Dir => makedirs_from name (cur ++ [n]) names w
    | Some File =>
        (Raise (new_exc (if descends names then NotADirectoryError else FileExistsError)
                  name), w)
    | None =>
        makedirs_from name (cur ++ [n]) names
          (World (w_cwd w) (<[cur ++ [n] := Dir]> (w_fs w)) (w_hub w)
             (w_log w ++ [MadeDir (cur ++ [n])]))
    end.
Proof.
  intros (He & Hd & Hdd & _). cbn [makedirs_from].
  rewrite !bool_decide_eq_false_2 by assumption. cbn [orb].
  unfold bind, gets, os_mkdir, modify, raise.
  now destruct (kind_at (w_fs w) (cur ++ [n])) as [[] |].
Qed.

(** When [makedirs] returns, the target and all directories on the
    way to it are there, nothing that was there has changed, and no
    regular file was in the way. *)
Lemma makedirs_from_return name names : forall cur w w',
  Forall piece names ->
  kind_at (w_fs w) cur = Some Dir ->
  makedirs_from name cur names w = (Return tt, w') ->
  w_cwd w' = w_cwd w /\ w_hub w' = w_hub w
  /\ fs_extends (w_fs w) (w_fs w')
  /\ walk (w_fs w') cur names = Some (cur ++ filter (fun n => n <> "") names)
  /\ kind_at (w_fs w') (cur ++ filter (fun n => n <> "") names) = Some Dir.
Proof.
  induction names as [| n names IH]; intros cur w w' Hall Hcur.
  - intros [= <-]. rewrite filter_nil, app_nil_r. cbn [walk]. rewrite Hcur.
    repeat split; auto using fs_extends_refl.
  - inversion Hall as [| ? ? Hn Hnames]; subst. destruct Hn as [-> | Hn].
    + rewrite makedirs_from_skip. intros Hrun.
      destruct (IH _ _ _ Hnames Hcur Hrun) as (Hcwd & Hhub & Hext & Hwalk & Hkind).
      rewrite filter_cons_False by (now intros ?).
      repeat split; try assumption.
      rewrite walk_skip; [exact Hwalk | now apply Hext].
    + rewrite (makedirs_from_enter _ _ _ _ _ Hn).
      pose proof Hn as (He & _).
      rewrite filter_cons_True by exact He.
      replace (cur ++ n :: filter (fun n0 : string => n0 <> "") names)
        with ((cur ++ [n]) ++ filter (fun n0 : string => n0 <> "") names)
        by now rewrite <- app_assoc.
      destruct (kind_at (w_fs w) (cur ++ [n])) as [[] |] eqn:Hchild.
      * discriminate.
      * intros Hrun.
        destruct (IH _ _ _ Hnames Hchild Hrun) as (Hcwd & Hhub & Hext & Hwalk & Hkind).
        repeat split; try assumption.
        rewrite walk_enter; [exact Hwalk | exact Hn | now apply Hext].
      * intros Hrun.
        apply IH in Hrun as (Hcwd & Hhub & Hext & Hwalk & Hkind);
          [| exact Hnames | apply kind_at_insert_eq, child_not_root].
        cbn [w_cwd w_hub w_fs] in *.
        assert (fs_extends (w_fs w) (w_fs w')) as Hext'.
        { eapply fs_extends_trans; [| exact Hext]. now apply fs_extends_insert. }
        repeat split; try assumption.
        rewrite walk_enter; [exact Hwalk | exact Hn | now apply Hext'].
Qed.

(** [makedirs] raises only for a regular file on the way or at the
    target, and then an [OSError]. *)
Lemma makedirs_from_raise name names : forall cur w w' e,
  Forall piece names ->
  makedirs_from name cur names w = (Raise e, w') ->
  isinstance e OSError = true
  /\ exists pre,
       pre `prefix_of` filter (fun n => n <> "") names
       /\ kind_at (w_fs w) (cur ++ pre) = Some File.
Proof.
  induction names as [| n names IH]; intros cur w w' e Hall; [discriminate |].
  inversion Hall as [| ? ? Hn Hnames]; subst. destruct Hn as [-> | Hn].
  - rewrite makedirs_from_skip, filter_cons_False by (now intros ?). now apply IH.
  - rewrite (makedirs_from_enter _ _ _ _ _ Hn).
    pose proof Hn as (He & _). rewrite filter_cons_True by exact He.
    destruct (kind_at (w_fs w) (cur ++ [n])) as [[] |] eqn:Hchild.
    + intros [= <- <-]. split; [now destruct (descends names) |].
      exists [n]. split; [| exact Hchild].
      now apply prefix_cons, prefix_nil.
    + intros Hrun. destruct (IH _ _ _ _ Hnames Hrun) as (Hos & pre & Hpre & Hfile).
      split; [exact Hos |]. exists (n :: pre).
      split; [now apply prefix_cons |]. now rewrite <- app_assoc in Hfile.
    + intros Hrun. destruct (IH _ _ _ _ Hnames Hrun) as (Hos & pre & Hpre & Hfile).
      split; [exact Hos |]. exists (n :: pre).
      split; [now apply prefix_cons |]. cbn [w_fs] in Hfile.
      rewrite <- app_assoc in Hfile. cbn [app] in Hfile.
      destruct (decide (cur ++ [n] = cur ++ n :: pre)) as [Heq | Hne].
      * rewrite <- Heq, kind_at_insert_eq in Hfile by apply child_not_root.
        discriminate.
      * now rewrite kind_at_insert_ne in Hfile.
Qed.

(** [makedirs] of a directory that is there does nothing. *)
Lemma makedirs_from_present name names : forall cur w q,
  Forall piece names ->
  walk (w_fs w) cur names = Some q -> kind_at (w_fs w) q = Some Dir ->
  makedirs_from name cur names w = (Return tt, w).
Proof.
  induction names as [| n names IH]; intros cur w q Hall Hwalk Hq; [reflexivity |].
  inversion Hall as [| ? ? Hn Hnames]; subst.
  pose proof (walk_from_dir _ _ _ _ Hwalk Hq) as Hcur.
  destruct Hn as [-> | Hn].
  - rewrite makedirs_from_skip. rewrite walk_skip in Hwalk by exact Hcur. eauto.
  - rewrite (makedirs_from_enter _ _ _ _ _ Hn).
    rewrite walk_enter in Hwalk by assumption.
    rewrite (walk_from_dir _ _ _ _ Hwalk Hq). eauto.
Qed.
End Makedirs.

(** ** The class hierarchy *)

(** Induction on classes that reaches the further bases too. *)
Lemma pyclass_induction (P : pyclass -> Prop) :
  (forall b, P (Builtin b)) ->
  (forall name base more, P base -> Forall P more -> P (UserClass name base more)) ->
  forall c, P c.
Proof.
  intros Hbuiltin Huser. fix IH 1. intros [b | name base more].
  - apply Hbuiltin.
  - apply Huser; [apply IH |].
    induction more as [| c more IHmore]; constructor; [apply IH | exact IHmore].
Qed.

(** A class that descends from a built-in class [d] descends from what
    [d] descends from. *)
Lemma issubclass_up (d d' : builtin_exc) (c : pyclass) :
  (forall b, builtin_issubclass b d = true -> builtin_issubclass b d' = true) ->
  issubclass c d = true -> issubclass c d' = true.
Proof.
  intros Hup. induction c as [b | name base more IHbase IHmore] using pyclass_induction.
  - apply Hup.
  - cbn [issubclass]. rewrite !orb_true_iff. intros [Hb | Hm]; [left; auto | right].
    rewrite existsb_exists in *. destruct Hm as (c' & Hin & Hc').
    exists c'. split; [exact Hin |].
    rewrite Forall_forall in IHmore. apply IHmore; [| exact Hc'].
    now apply list_elem_of_In.
Qed.

Lemma isinstance_Exception (e : pyexc) (d : builtin_exc) :
  d = FileNotFoundError \/ d = ConnectionError \/ d = ValueError ->
  isinstance e d = true -> isinstance e Exception = true.
Proof.
  intros Hd. unfold isinstance. apply issubclass_up.
  intros b. destruct Hd as [-> | [-> | ->]]; destruct b; vm_compute; congruence.
Qed.

(** Some clause catches an exception exactly when it is an instance of
    [Exception]. *)
Lemma classify_None (e : pyexc) :
  classify e = None <-> isinstance e Exception = false.
Proof.
  unfold classify.
  destruct (isinstance e FileNotFoundError) eqn:Hf.
  { rewrite (isinstance_Exception e FileNotFoundError) by auto. split; discriminate. }
  destruct (isinstance e ConnectionError) eqn:Hc.
  { rewrite (isinstance_Exception e ConnectionError) by auto. split; discriminate. }
  destruct (isinstance e ValueError) eqn:Hv.
  { rewrite (isinstance_Exception e ValueError) by auto. split; discriminate. }
  destruct (isinstance e Exception); split; congruence.
Qed.

Lemma kind_of_exc_kind_class (k : failure_kind) (msg : string) (cause : option pyexc) :
  kind_of_exc (PyExc (Builtin (kind_class k)) msg cause) = Some k.
Proof. now destruct k. Qed.

(** ** Auxiliary lemmas on the log *)

Lemma new_events_app (before added : list event) :
  new_events before (before ++ added) = added.
Proof. unfold new_events. apply drop_app_length. Qed.

Lemma new_events_app3 (before : list event) (a b c : event) :
  new_events before (((before ++ [a]) ++ [b]) ++ [c]) = [a; b; c].
Proof. rewrite <- !app_assoc. apply new_events_app. Qed.

Lemma new_events_app4 (before : list event) (a b c d : event) :
  new_events before ((((before ++ [a]) ++ [b]) ++ [c]) ++ [d]) = [a; b; c; d].
Proof. rewrite <- !app_assoc. apply new_events_app. Qed.

Lemma library_calls_app (a b : list event) :
  library_calls (a ++ b) = library_calls a ++ library_calls b.
Proof. apply omap_app. Qed.

Lemma made_dirs_app (a b : list event) :
  made_dirs (a ++ b) = made_dirs a ++ made_dirs b.
Proof. apply omap_app. Qed.

(** Resolution looks at the working directory and the file system only. *)
Lemma namei_frame {Hub Hub'} (w : world Hub) (hub' : Hub') (log' : list event)
    (path : string) :
  namei (World (w_cwd w) (w_fs w) hub' log') path = namei w path.
Proof. reflexivity. Qed.

(** Unfold one run of [load_dataset] down to the call of the library. *)
Ltac unfold_load_dataset :=
  unfold load_dataset, try_except, dataset_path, local_call, remote_call in *;
  unfold self_local_cache_dir, os_path_exists, print, raise_from,
    call_datasets_load_dataset in *;
  unfold log_event in *;
  unfold bind, lift_snd, modify, gets, raise in *;
  cbn [fst snd w_log w_fs w_hub w_cwd local_cache_dir] in *;
  rewrite ?namei_frame in *.

(** Case analysis on the clause that catches [e]. *)
Ltac case_clauses e :=
  cbn [dispatch];
  destruct (isinstance e FileNotFoundError) eqn:?;
  [| destruct (isinstance e ConnectionError) eqn:?;
     [| destruct (isinstance e ValueError) eqn:?;
        [| destruct (isinstance e Exception) eqn:? ]]];
  unfold print, raise_from; unfold log_event;
  unfold bind, lift_snd, modify, raise;
  cbn [fst snd w_log w_fs w_hub w_cwd local_cache_dir].

Section LoadDataset.
Context `{DatasetsLibrary}.
Implicit Types (self : DatasetLoader) (w : world Hub).
Implicit Types (dataset_name split : string).

(** One run, end to end: two lines are printed, the library is called
    once with [chosen_call], and its outcome decides the rest.  A
    returned dataset is returned; an exception some clause catches is
    announced by a third line and replaced by an exception of the
    clause's class, whose message names the dataset (and the split, in
    the clause of line 63) and whose cause is the caught exception; an
    exception no clause catches leaves as it is. *)
Lemma load_dataset_run self w dataset_name split :
  exists line1 line2,
    let args := chosen_call self w dataset_name split in
    let '(r, (fs', hub')) := datasets_load_dataset args (w_fs w, w_hub w) in
    let log' := w_log w ++ [Printed line1; Printed line2; LibraryCall args] in
    match r with
    | Return d =>
        load_dataset dataset_name split (self, w)
        = (Return d, (self, World (w_cwd w) fs' hub' log'))
    | Raise e =>
        match classify e with
        | Some k =>
            exists line3 msg,
              load_dataset dataset_name split (self, w)
              = (Raise (PyExc (Builtin (kind_class k)) msg (Some e)),
                 (self, World (w_cwd w) fs' hub' (log' ++ [Printed line3])))
              /\ occurs_in dataset_name msg
              /\ (k = InvalidArgument -> occurs_in split msg)
        | None =>
            load_dataset dataset_name split (self, w)
            = (Raise e, (self, World (w_cwd w) fs' hub' log'))
        end
    end.
Proof.
  unfold chosen_call. unfold_load_dataset.
  destruct (bool_decide (is_Some (namei w _)));
    cbn [w_log w_fs w_hub]; do 2 eexists;
    destruct (datasets_load_dataset _ _) as [[d|e] [fs' hub']];
    cbn [w_log w_fs w_hub w_cwd];
    rewrite <- ?app_assoc; cbn [app]; try reflexivity;
    unfold classify; case_clauses e; rewrite <- ?app_assoc; cbn [app];
    try reflexivity;
    do 2 eexists; rewrite <- ?app_assoc; cbn [app]; (split; [reflexivity |]);
    unfold with_cause, new_exc; cbn [exc_str exc_class kind_class];
    (split; [apply occurs_in_middle | intros Hk; try discriminate Hk]);
    apply occurs_in_app_l, occurs_in_app_l, occurs_in_middle.
Qed.

Ltac run_load self w dataset_name split :=
  let Hrun := fresh "Hrun" in
  destruct (load_dataset_run self w dataset_name split) as (?line1 & ?line2 & Hrun);
  cbv zeta in Hrun; unfold library_outcome in *;
  destruct (datasets_load_dataset (chosen_call self w dataset_name split)
              (w_fs w, w_hub w)) as [[?d | ?e] [?fs' ?hub']];
  cbn [fst snd] in *.

(** What a run returns or raises. *)
Lemma load_dataset_result self w dataset_name split :
  match library_outcome self w dataset_name split with
  | Return d => fst (load_dataset dataset_name split (self, w)) = Return d
  | Raise e =>
      match classify e with
      | Some k =>
          exists msg,
            fst (load_dataset dataset_name split (self, w))
            = Raise (PyExc (Builtin (kind_class k)) msg (Some e))
            /\ occurs_in dataset_name msg
            /\ (k = InvalidArgument -> occurs_in split msg)
      | None => fst (load_dataset dataset_name split (self, w)) = Raise e
      end
  end.
Proof.
  run_load self w dataset_name split.
  - now rewrite Hrun.
  - destruct (classify e) as [k |].
    + destruct Hrun as (line3 & msg & -> & Hname & Hsplit). now exists msg.
    + now rewrite Hrun.
Qed.

(** What a run adds to the log. *)
Lemma load_dataset_log self w dataset_name split :
  exists line1 line2 after,
    w_log (snd (snd (load_dataset dataset_name split (self, w))))
    = w_log w
      ++ [Printed line1; Printed line2;
          LibraryCall (chosen_call self w dataset_name split)] ++ after
    /\ match library_outcome self w dataset_name split with
       | Return _ => after = []
       | Raise e =>
           if isinstance e Exception then exists line3, after = [Printed line3]
           else after = []
       end.
Proof.
  run_load self w dataset_name split; exists line1, line2.
  - exists []. now rewrite Hrun.
  - destruct (classify e) as [k |] eqn:Hk.
    + destruct Hrun as (line3 & msg & -> & _). exists [Printed line3].
      cbn [snd w_log]. rewrite <- app_assoc. split; [reflexivity |].
      destruct (isinstance e Exception) eqn:He; [now exists line3 |].
      apply classify_None in He. congruence.
    + exists []. rewrite Hrun. split; [reflexivity |].
      apply classify_None in Hk. now rewrite Hk.
Qed.

(** What a run leaves of [self] and of the world. *)
Lemma load_dataset_state self w dataset_name split :
  let st' := snd (load_dataset dataset_name split (self, w)) in
  fst st' = self
  /\ w_cwd (snd st') = w_cwd w
  /\ (w_fs (snd st'), w_hub (snd st'))
     = snd (datasets_load_dataset (chosen_call self w dataset_name split)
              (w_fs w, w_hub w)).
Proof.
  cbv zeta. run_load self w dataset_name split.
  - now rewrite Hrun.
  - destruct (classify e) as [k |].
    + now destruct Hrun as (line3 & msg & -> & _).
    + now rewrite Hrun.
Qed.

(** A run calls the library exactly once, with [chosen_call]. *)
Lemma load_dataset_calls self w dataset_name split :
  library_calls
    (new_events (w_log w)
       (w_log (snd (snd (load_dataset dataset_name split (self, w))))))
  = [chosen_call self w dataset_name split].
Proof.
  destruct (load_dataset_log self w dataset_name split)
    as (line1 & line2 & after & -> & Hafter).
  rewrite new_events_app, library_calls_app.
  assert (library_calls after = []) as ->; [| reflexivity].
  destruct (library_outcome self w dataset_name split) as [d | e];
    [now subst |].
  destruct (isinstance e Exception); [destruct Hafter as (line3 & ->) | subst];
    reflexivity.
Qed.

(** A run makes no directory. *)
Lemma load_dataset_made_dirs self w dataset_name split :
  exists added,
    w_log (snd (snd (load_dataset dataset_name split (self, w)))) = w_log w ++ added
    /\ made_dirs added = [].
Proof.
  destruct (load_dataset_log self w dataset_name split)
    as (line1 & line2 & after & -> & Hafter).
  eexists. split; [reflexivity |]. rewrite made_dirs_app.
  assert (made_dirs after = []) as ->; [| reflexivity].
  destruct (library_outcome self w dataset_name split) as [d | e];
    [now subst |].
  destruct (isinstance e Exception); [destruct Hafter as (line3 & ->) | subst];
    reflexivity.
Qed.

Lemma os_path_exists_true w path :
  fst (os_path_exists path w) = Return true <-> is_Some (namei w path).
Proof.
  unfold os_path_exists, gets. cbn [fst]. split.
  - intros [= Hb]. now apply bool_decide_eq_true in Hb.
  - intros Hs. f_equal. now apply bool_decide_eq_true.
Qed.

Lemma os_path_exists_false w path :
  fst (os_path_exists path w) = Return false <-> namei w path = None.
Proof.
  unfold os_path_exists, gets. cbn [fst]. split.
  - intros [= Hb]. apply bool_decide_eq_false in Hb.
    destruct (namei w path) as [p |] eqn:Hp; [| reflexivity].
    exfalso. apply Hb. now exists p.
  - intros ->. reflexivity.
Qed.

(** C1.  When [os.path.exists] holds of the path joined from the cache
    directory and the dataset name, [load_dataset] calls the library
    exactly once, with that path and the given split and without a
    cache directory (the call of line 45), and makes no call of the
    remote form of line 49. *)
Theorem C1_existing_path_takes_local_branch self w dataset_name split :
  fst (os_path_exists (os_path_join (local_cache_dir self) dataset_name) w)
  = Return true ->
  let calls :=
    library_calls
      (new_events (w_log w)
         (w_log (snd (snd (load_dataset dataset_name split (self, w)))))) in
  calls = [LoadArgs (os_path_join (local_cache_dir self) dataset_name) split None]
  /\ remote_call self dataset_name split ∉ calls.
Proof.
  intros Hexists calls. subst calls. rewrite load_dataset_calls.
  apply os_path_exists_true in Hexists. unfold chosen_call, dataset_path.
  rewrite (bool_decide_eq_true_2 _ Hexists). split; [reflexivity |].
  rewrite list_elem_of_singleton. discriminate.
Qed.

(** C2.  When the joined path does not exist, [load_dataset] calls the
    library exactly once, with the dataset name, the given split and
    the loader's cache directory as [cache_dir] (the call of line 49). *)
Theorem C2_missing_path_takes_remote_branch self w dataset_name split :
  fst (os_path_exists (os_path_join (local_cache_dir self) dataset_name) w)
  = Return false ->
  library_calls
    (new_events (w_log w)
       (w_log (snd (snd (load_dataset dataset_name split (self, w))))))
  = [LoadArgs dataset_name split (Some (local_cache_dir self))].
Proof.
  intros Hmissing. rewrite load_dataset_calls.
  apply os_path_exists_false in Hmissing. unfold chosen_call, dataset_path.
  rewrite bool_decide_eq_false_2; [reflexivity |].
  rewrite Hmissing. intros [? [=]].
Qed.

(** C3, amended.  The library is called once and never again.  When
    its call raises an instance of [Exception], [load_dataset] raises
    an exception of exactly one of the four kinds, chosen by the first
    matching clause (not-found for a [FileNotFoundError], connectivity
    for a [ConnectionError], invalid-argument for a [ValueError],
    unexpected for anything else), with the library's exception as
    its cause.  An exception that is not an instance of [Exception]
    reaches the caller as it is. *)
Theorem C3_exception_instances_are_classified self w dataset_name split e :
  library_outcome self w dataset_name split = Raise e ->
  library_calls
    (new_events (w_log w)
       (w_log (snd (snd (load_dataset dataset_name split (self, w))))))
  = [chosen_call self w dataset_name split]
  /\ (isinstance e Exception = true ->
      exists k e',
        classify e = Some k
        /\ fst (load_dataset dataset_name split (self, w)) = Raise e'
        /\ kind_of_exc e' = Some k
        /\ exc_cause e' = Some e)
  /\ (isinstance e Exception = false ->
      fst (load_dataset dataset_name split (self, w)) = Raise e).
Proof.
  intros Hraise. split; [apply load_dataset_calls |].
  pose proof (load_dataset_result self w dataset_name split) as Hres.
  rewrite Hraise in Hres. split.
  - intros Hexc. destruct (classify e) as [k |] eqn:Hk.
    + destruct Hres as (msg & Hres & _). exists k. eexists.
      split; [reflexivity |]. split; [exact Hres |].
      split; [apply kind_of_exc_kind_class | reflexivity].
    + apply classify_None in Hk. congruence.
  - intros Hexc. apply classify_None in Hexc. now rewrite Hexc in Hres.
Qed.

(** C4, amended.  Whenever [load_dataset] raises, either the exception
    is the library's own, not an instance of [Exception] and passed
    through untouched, or it is of one of the four kinds and its
    message contains the dataset name, and also the split when the
    kind is invalid-argument. *)
Theorem C4_wrapped_message_names_dataset self w dataset_name split e' :
  fst (load_dataset dataset_name split (self, w)) = Raise e' ->
  (library_outcome self w dataset_name split = Raise e'
   /\ isinstance e' Exception = false)
  \/ (exists k,
        kind_of_exc e' = Some k
        /\ occurs_in dataset_name (exc_str e')
        /\ (k = InvalidArgument -> occurs_in split (exc_str e'))).
Proof.
  intros Hraise.
  pose proof (load_dataset_result self w dataset_name split) as Hres.
  destruct (library_outcome self w dataset_name split) as [d | e]; [congruence |].
  destruct (classify e) as [k |] eqn:Hk.
  - right. destruct Hres as (msg & Hres & Hname & Hsplit).
    rewrite Hres in Hraise. injection Hraise as <-. exists k.
    split; [apply kind_of_exc_kind_class | now split].
  - left. rewrite Hres in Hraise. injection Hraise as <-.
    split; [reflexivity | now apply classify_None].
Qed.

(** C6.  [load_dataset] returns the very value the library returns,
    and raises when the library raises: every run ends in a returned
    dataset or in a raised exception. *)
Theorem C6_result_passed_through self w dataset_name split :
  match library_outcome self w dataset_name split with
  | Return d => fst (load_dataset dataset_name split (self, w)) = Return d
  | Raise _ => exists e', fst (load_dataset dataset_name split (self, w)) = Raise e'
  end
  /\ ((exists d, fst (load_dataset dataset_name split (self, w)) = Return d)
      \/ (exists e', fst (load_dataset dataset_name split (self, w)) = Raise e')).
Proof.
  pose proof (load_dataset_result self w dataset_name split) as Hres.
  destruct (library_outcome self w dataset_name split) as [d | e].
  - split; [exact Hres | left; now exists d].
  - assert (exists e', fst (load_dataset dataset_name split (self, w)) = Raise e')
      as Hraise.
    { destruct (classify e) as [k |]; [| now exists e].
      destruct Hres as (msg & -> & _). now eexists. }
    split; [exact Hraise | now right].
Qed.

(** Any number of runs leaves [self] and the working directory alone
    and makes no directory. *)
Lemma load_datasets_frame requests : forall self w,
  let st' := load_datasets requests (self, w) in
  fst st' = self
  /\ w_cwd (snd st') = w_cwd w
  /\ exists added, w_log (snd st') = w_log w ++ added /\ made_dirs added = [].
Proof.
  induction requests as [| [dataset_name split] requests IH]; intros self w; cbv zeta.
  - cbn. repeat split. exists []. now rewrite app_nil_r.
  - unfold load_datasets in *. cbn [fold_left].
    destruct (load_dataset_state self w dataset_name split) as (Hself & Hcwd & _).
    destruct (load_dataset_made_dirs self w dataset_name split) as (added1 & Hlog1 & Hdirs1).
    destruct (snd (load_dataset dataset_name split (self, w))) as [self1 w1].
    cbn [fst snd] in *. subst self1.
    destruct (IH self w1) as (Hself' & Hcwd' & added2 & Hlog2 & Hdirs2).
    split; [exact Hself' |]. split; [congruence |].
    exists (added1 ++ added2). rewrite Hlog2, Hlog1, <- app_assoc.
    split; [reflexivity |]. now rewrite made_dirs_app, Hdirs1, Hdirs2.
Qed.

(** C7.  After any sequence of calls of [load_dataset] the loader's
    [local_cache_dir] is what it was, and none of the calls made a
    directory; the file system a single call leaves is the one the
    library left. *)
Theorem C7_load_keeps_cache_dir_and_makes_no_directory requests self w :
  local_cache_dir (fst (load_datasets requests (self, w))) = local_cache_dir self
  /\ made_dirs (new_events (w_log w) (w_log (snd (load_datasets requests (self, w)))))
     = []
  /\ forall dataset_name split,
       w_fs (snd (snd (load_dataset dataset_name split (self, w))))
       = fst (snd (datasets_load_dataset (chosen_call self w dataset_name split)
                     (w_fs w, w_hub w))).
Proof.
  destruct (load_datasets_frame requests self w) as (Hself & _ & added & Hlog & Hdirs).
  split; [now rewrite Hself |]. split.
  - now rewrite Hlog, new_events_app.
  - intros dataset_name split.
    destruct (load_dataset_state self w dataset_name split) as (_ & _ & Hfs).
    now rewrite <- Hfs.
Qed.

(** C8, amended.  A run prints two lines, then calls the library.  If
    the call raises an instance of [Exception], one more line is
    printed before [load_dataset] raises; if the call returns, or
    raises anything else, nothing is printed after it. *)
Theorem C8_prints_before_and_on_failure self w dataset_name split :
  exists line1 line2 after,
    new_events (w_log w)
      (w_log (snd (snd (load_dataset dataset_name split (self, w)))))
    = [Printed line1; Printed line2;
       LibraryCall (chosen_call self w dataset_name split)] ++ after
    /\ match library_outcome self w dataset_name split with
       | Return _ => after = []
       | Raise e =>
           if isinstance e Exception then exists line3, after = [Printed line3]
           else after = []
       end.
Proof.
  destruct (load_dataset_log self w dataset_name split)
    as (line1 & line2 & after & Hlog & Hafter).
  exists line1, line2, after. split; [| exact Hafter].
  now rewrite Hlog, new_events_app.
Qed.

(** C10.  An entry of any kind at the joined path, a regular file as
    much as a directory, sends [load_dataset] to the local call of
    line 45 and to no other call; when the library then raises,
    [load_dataset] raises too, and when it returns a dataset, that is
    the result. *)
Theorem C10_any_entry_takes_local_branch self w dataset_name split kind :
  stat_kind w (os_path_join (local_cache_dir self) dataset_name) = Some kind ->
  library_calls
    (new_events (w_log w)
       (w_log (snd (snd (load_dataset dataset_name split (self, w))))))
  = [LoadArgs (os_path_join (local_cache_dir self) dataset_name) split None]
  /\ match fst (datasets_load_dataset
                  (LoadArgs (os_path_join (local_cache_dir self) dataset_name)
                     split None)
                  (w_fs w, w_hub w)) with
     | Return d => fst (load_dataset dataset_name split (self, w)) = Return d
     | Raise _ =>
         exists e', fst (load_dataset dataset_name split (self, w)) = Raise e'
     end.
Proof.
  intros Hkind.
  assert (chosen_call self w dataset_name split
          = LoadArgs (os_path_join (local_cache_dir self) dataset_name) split None)
    as Hcall.
  { unfold chosen_call, dataset_path. rewrite bool_decide_eq_true_2; [reflexivity |].
    unfold stat_kind in Hkind.
    destruct (namei w _) as [p |]; [now exists p | discriminate]. }
  split; [now rewrite load_dataset_calls, Hcall |].
  pose proof (load_dataset_result self w dataset_name split) as Hres.
  unfold library_outcome in Hres. rewrite Hcall in Hres.
  destruct (fst (datasets_load_dataset _ _)) as [d | e]; [exact Hres |].
  destruct (classify e) as [k |]; [| now exists e].
  destruct Hres as (msg & -> & _). now eexists.
Qed.

End LoadDataset.

(** ** Construction *)

(** The directories on a resolved path: when resolution of pieces ends
    in a directory, every prefix of the names is a directory. *)
Lemma walk_prefix_dirs fs names : forall cur q,
  Forall piece names ->
  walk fs cur names = Some q -> kind_at fs q = Some Dir ->
  forall pre, pre `prefix_of` filter (fun n => n <> "") names ->
    kind_at fs (cur ++ pre) = Some Dir.
Proof.
  induction names as [| n names IH]; intros cur q Hall Hwalk Hq pre Hpre.
  - rewrite filter_nil in Hpre. apply prefix_nil_inv in Hpre as ->.
    rewrite app_nil_r. eapply walk_from_dir; eassumption.
  - inversion Hall as [| ? ? Hn Hnames]; subst.
    pose proof (walk_from_dir _ _ _ _ Hwalk Hq) as Hcur.
    destruct Hn as [-> | Hn].
    + rewrite filter_cons_False in Hpre by (now intros ?).
      rewrite walk_skip in Hwalk by exact Hcur. eauto.
    + pose proof Hn as (He & _). rewrite filter_cons_True in Hpre by exact He.
      rewrite walk_enter in Hwalk by assumption.
      destruct pre as [| n' pre]; [now rewrite app_nil_r |].
      apply prefix_cons_inv_1 in Hpre as Heq. subst n'.
      apply prefix_cons_inv_2 in Hpre.
      replace (cur ++ n :: pre) with ((cur ++ [n]) ++ pre) by now rewrite <- app_assoc.
      eauto.
Qed.

(** The pieces of what [abspath] returns. *)
Lemma os_path_abspath_pieces (cwd : list string) (path : string) :
  startswith_sep (os_path_abspath cwd path) = true
  /\ Forall piece (split_sep (os_path_abspath cwd path))
  /\ Forall proper_name (components (os_path_abspath cwd path)).
Proof.
  destruct (os_path_abspath_form cwd path) as (k & comps & Hk & Hcomps & ->).
  split; [now destruct k |]. split.
  - rewrite (split_sep_normal _ _ Hcomps). apply Forall_app. split.
    + apply Forall_replicate. now left.
    + destruct (decide (comps = [])) as [Hnil | Hcons];
        [repeat constructor; now left |].
      eapply Forall_impl; [exact Hcomps |]. intros name Hname. now right.
  - now rewrite (components_normal _ _ Hcomps).
Qed.

(** Resolving a path that starts with a slash. *)
Lemma namei_absolute {Hub} (w : world Hub) (path : string) :
  startswith_sep path = true -> namei w path = walk (w_fs w) [] (split_sep path).
Proof.
  intros Habs. unfold namei. rewrite Habs.
  now rewrite bool_decide_eq_false_2 by now apply startswith_sep_nonempty.
Qed.

(** Joining the empty name to a directory names the directory again. *)
Lemma namei_join_empty {Hub} (w : world Hub) (dir : string) :
  stat_kind w dir = Some Dir -> namei w (os_path_join dir "") = namei w dir.
Proof.
  unfold stat_kind. destruct (namei w dir) as [q |] eqn:Hdir; [| discriminate].
  cbn. intros Hq. unfold os_path_join. cbn [startswith_sep].
  assert (dir <> "") as Hne.
  { intros ->. unfold namei in Hdir. cbn in Hdir. discriminate. }
  rewrite (bool_decide_eq_false_2 _ Hne). cbn [orb].
  destruct (endswith_sep dir).
  - now rewrite string_app_empty_r.
  - change ("/" +:+ "") with "/".
    unfold namei in *. rewrite (bool_decide_eq_false_2 _ Hne) in Hdir.
    rewrite bool_decide_eq_false_2 by now destruct dir.
    rewrite startswith_sep_app by exact Hne.
    rewrite split_sep_trailing, walk_app, Hdir. cbn [mbind option_bind].
    cbn [walk]. now rewrite Hq.
Qed.

Section Construction.
Context `{DatasetsLibrary}.
Implicit Types (self : DatasetLoader) (w : world Hub).

(** Construction is [makedirs] on the absolute path, and the loader
    holds that path. *)
Lemma new_DatasetLoader_run path w :
  let dir := os_path_abspath (w_cwd w) path in
  new_DatasetLoader path w
  = match makedirs_from dir [] (split_sep dir) w with
    | (Return _, w') => (Return {| local_cache_dir := dir |}, w')
    | (Raise e, w') => (Raise e, w')
    end.
Proof.
  cbv zeta. destruct (os_path_abspath_pieces (w_cwd w) path) as (Habs & _).
  unfold new_DatasetLoader, __init__, abspath, set_self_local_cache_dir,
    self_local_cache_dir, os_makedirs_exist_ok.
  unfold bind, lift_snd, gets, modify. cbn [fst snd local_cache_dir].
  rewrite Habs.
  rewrite bool_decide_eq_false_2 by now apply startswith_sep_nonempty.
  now destruct (makedirs_from _ _ _ w) as [[[] | e] w'].
Qed.

(** C5.  The loader holds [abspath] of the given path: it starts with
    a slash and its names are proper ones (no empty name, [.] or
    [..]).  Whenever construction returns, that path is a directory,
    as are all paths above it; what was in the file system before is
    still there; and constructing again with the same path returns the
    same loader and changes nothing.  When the directory is there
    already, construction returns and changes nothing.  Construction
    returns unless a regular file sits at the path or above it. *)
Theorem C5_construction_makes_cache_dir path w :
  let dir := os_path_abspath (w_cwd w) path in
  startswith_sep dir = true
  /\ Forall proper_name (components dir)
  /\ (forall self w',
        new_DatasetLoader path w = (Return self, w') ->
        local_cache_dir self = dir
        /\ stat_kind w' dir = Some Dir
        /\ (forall pre, pre `prefix_of` components dir ->
              kind_at (w_fs w') pre = Some Dir)
        /\ fs_extends (w_fs w) (w_fs w')
        /\ new_DatasetLoader path w' = (Return self, w'))
  /\ (stat_kind w dir = Some Dir ->
      new_DatasetLoader path w = (Return {| local_cache_dir := dir |}, w))
  /\ ((forall pre, pre `prefix_of` components dir ->
         kind_at (w_fs w) pre <> Some File) ->
      exists self w', new_DatasetLoader path w = (Return self, w')).
Proof.
  cbv zeta.
  destruct (os_path_abspath_pieces (w_cwd w) path) as (Habs & Hpieces & Hproper).
  split; [exact Habs |]. split; [exact Hproper |].
  assert (forall w0 : world Hub,
            w_cwd w0 = w_cwd w ->
            stat_kind w0 (os_path_abspath (w_cwd w) path) = Some Dir ->
            new_DatasetLoader path w0
            = (Return {| local_cache_dir := os_path_abspath (w_cwd w) path |}, w0))
    as Hpresent.
  { intros w0 Hcwd Hdir. rewrite new_DatasetLoader_run. cbv zeta. rewrite Hcwd.
    unfold stat_kind in Hdir. rewrite (namei_absolute _ _ Habs) in Hdir.
    destruct (walk (w_fs w0) [] _) as [q |] eqn:Hwalk; [| discriminate].
    cbn in Hdir. now rewrite (makedirs_from_present _ _ _ _ _ Hpieces Hwalk Hdir). }
  split; [| split].
  - intros self w'. rewrite new_DatasetLoader_run. cbv zeta.
    destruct (makedirs_from _ _ _ w) as [[[] | e] w1] eqn:Hrun; [| discriminate].
    intros [= <- <-].
    destruct (makedirs_from_return _ _ [] w w1 Hpieces eq_refl Hrun)
      as (Hcwd & _ & Hext & Hwalk & Hkind).
    cbn [app] in Hwalk, Hkind.
    assert (stat_kind w1 (os_path_abspath (w_cwd w) path) = Some Dir) as Hstat.
    { unfold stat_kind. rewrite (namei_absolute _ _ Habs), Hwalk. exact Hkind. }
    split; [reflexivity |]. split; [exact Hstat |]. split; [| split].
    + intros pre Hpre.
      exact (walk_prefix_dirs _ _ _ _ Hpieces Hwalk Hkind pre Hpre).
    + exact Hext.
    + now apply Hpresent.
  - now apply Hpresent.
  - intros Hfree. rewrite new_DatasetLoader_run. cbv zeta.
    destruct (makedirs_from _ _ _ w) as [[[] | e] w1] eqn:Hrun; [now eauto |].
    destruct (makedirs_from_raise _ _ _ _ _ _ Hpieces Hrun) as (_ & pre & Hpre & Hfile).
    now destruct (Hfree pre Hpre).
Qed.

(** C9.  After construction the cache directory is a directory, and in
    every world in which it is one, the path joined from it and the
    empty dataset name names that same directory, so that
    [load_dataset] with the empty name makes the local call of line
    45, with the joined path, and no other call. *)
Theorem C9_empty_name_takes_local_branch path w self w' split :
  new_DatasetLoader path w = (Return self, w') ->
  stat_kind w' (local_cache_dir self) = Some Dir
  /\ forall w2 : world Hub,
       stat_kind w2 (local_cache_dir self) = Some Dir ->
       namei w2 (os_path_join (local_cache_dir self) "")
       = namei w2 (local_cache_dir self)
       /\ library_calls
            (new_events (w_log w2)
               (w_log (snd (snd (load_dataset "" split (self, w2))))))
          = [LoadArgs (os_path_join (local_cache_dir self) "") split None].
Proof.
  intros Hnew.
  assert (stat_kind w' (local_cache_dir self) = Some Dir) as Hdir.
  { rewrite new_DatasetLoader_run in Hnew. cbv zeta in Hnew.
    destruct (os_path_abspath_pieces (w_cwd w) path) as (Habs & Hpieces & _).
    destruct (makedirs_from _ _ _ w) as [[[] | e] w1] eqn:Hrun; [| discriminate].
    injection Hnew as <- <-.
    destruct (makedirs_from_return _ _ [] w w1 Hpieces eq_refl Hrun)
      as (_ & _ & _ & Hwalk & Hkind).
    unfold stat_kind. cbn [local_cache_dir].
    rewrite (namei_absolute _ _ Habs), Hwalk. exact Hkind. }
  split; [exact Hdir |]. intros w2 Hdir2.
  pose proof (namei_join_empty w2 _ Hdir2) as Hsame.
  split; [exact Hsame |].
  rewrite load_dataset_calls. unfold chosen_call, dataset_path.
  rewrite bool_decide_eq_true_2; [reflexivity |].
  rewrite Hsame. unfold stat_kind in Hdir2.
  destruct (namei w2 (local_cache_dir self)) as [q |]; [now exists q | discriminate].
Qed.
End Construction.

(** ** Further properties: the candidate path *)

Lemma split_sep_app_sep (s t : string) :
  split_sep (s +:+ String sep t) = split_sep s ++ split_sep t.
Proof.
  induction s as [| c s IH]; [reflexivity |].
  rewrite string_app_cons. cbn [split_sep]. rewrite IH.
  destruct (bool_decide (c = sep)); [reflexivity |].
  pose proof (split_sep_nonempty s). now destruct (split_sep s).
Qed.

Lemma endswith_sep_inv (a : string) :
  endswith_sep a = true -> exists a0, a = a0 +:+ "/".
Proof.
  induction a as [| c a IH]; [discriminate |]. cbn [endswith_sep].
  destruct a as [| c' a].
  - intros Hc. apply bool_decide_eq_true in Hc as ->. now exists "".
  - intros Hend. destruct (IH Hend) as (a0 & ->). now exists (String c a0).
Qed.

(** A relative name is joined behind exactly one separator. *)
Lemma os_path_join_relative (a b : string) :
  a <> "" -> startswith_sep b = false ->
  exists a0, os_path_join a b = a0 +:+ String sep b
             /\ (a = a0 /\ endswith_sep a = false \/ a = a0 +:+ "/").
Proof.
  intros Ha Hb. unfold os_path_join. rewrite Hb, (bool_decide_eq_false_2 _ Ha).
  cbn [orb]. destruct (endswith_sep a) eqn:Hend.
  - destruct (endswith_sep_inv a Hend) as (a0 & ->). exists a0.
    split; [| now right]. now rewrite string_app_assoc.
  - exists a. split; [reflexivity | now left].
Qed.

(** The candidate path of a relative dataset name is looked up from the
    cache directory, name by name. *)
Lemma namei_join_relative {Hub} (w : world Hub) (dir name : string) (q : cpath) :
  namei w dir = Some q -> kind_at (w_fs w) q = Some Dir ->
  startswith_sep name = false ->
  namei w (os_path_join dir name) = walk (w_fs w) q (split_sep name).
Proof.
  intros Hdir Hq Hrel.
  assert (dir <> "") as Hne by (intros ->; discriminate Hdir).
  destruct (os_path_join_relative dir name Hne Hrel) as (a0 & -> & Ha0).
  unfold namei in *. rewrite (bool_decide_eq_false_2 _ Hne) in Hdir.
  rewrite bool_decide_eq_false_2 by now destruct a0.
  assert (a0 = "" \/ a0 <> "") as [-> | Hne0] by (destruct a0; [left | right]; congruence).
  - destruct Ha0 as [[-> _] | ->]; [congruence |].
    change ("" +:+ "/") with "/" in Hdir.
    change ("" +:+ String sep name) with (String sep name).
    cbn [startswith_sep] in *. change (bool_decide (sep = sep)) with true in *.
    cbv iota in *. change (split_sep "/") with ["" ; ""] in Hdir.
    rewrite split_sep_sep. rewrite !walk_skip in Hdir by reflexivity.
    rewrite walk_skip by reflexivity. vm_compute in Hdir. now simplify_eq.
  - rewrite startswith_sep_app by exact Hne0. rewrite split_sep_app_sep, walk_app.
    destruct Ha0 as [[-> _] | ->].
    + now rewrite Hdir.
    + rewrite startswith_sep_app in Hdir by exact Hne0.
      rewrite split_sep_trailing, walk_app in Hdir.
      destruct (walk (w_fs w) _ (split_sep a0)) as [q0 |]; [| discriminate].
      cbn [mbind option_bind] in *. cbn [walk] in Hdir.
      destruct (kind_at (w_fs w) q0) as [[] |] eqn:Hq0; try discriminate.
      change (bool_decide ("" = "")) with true in Hdir. cbn [orb walk] in Hdir.
      now simplify_eq.
Qed.

(** A path that starts with a slash is resolved without the working
    directory. *)
Lemma namei_absolute_fs {Hub Hub'} (w1 : world Hub) (w2 : world Hub') (path : string) :
  startswith_sep path = true -> w_fs w1 = w_fs w2 -> namei w1 path = namei w2 path.
Proof. intros Habs Hfs. rewrite !namei_absolute by exact Habs. now rewrite Hfs. Qed.

Section CandidatePath.
Context `{DatasetsLibrary}.
Implicit Types (self : DatasetLoader) (w : world Hub).
Implicit Types (dataset_name split : string).

(** X1.  A dataset name that starts with a slash replaces the cache
    directory in the candidate path: the library is called once with the
    name itself as path, locally when the name exists as a path of its
    own and with the cache directory as [cache_dir] when it does not. *)
Theorem X1_absolute_name_ignores_cache_dir self w dataset_name split :
  startswith_sep dataset_name = true ->
  os_path_join (local_cache_dir self) dataset_name = dataset_name
  /\ library_calls
       (new_events (w_log w)
          (w_log (snd (snd (load_dataset dataset_name split (self, w))))))
     = [LoadArgs dataset_name split
          (if bool_decide (is_Some (namei w dataset_name)) then None
           else Some (local_cache_dir self))].
Proof.
  intros Habs.
  assert (os_path_join (local_cache_dir self) dataset_name = dataset_name) as Hjoin.
  { unfold os_path_join. now rewrite Habs. }
  split; [exact Hjoin |].
  rewrite load_dataset_calls. unfold chosen_call, dataset_path, local_call, remote_call.
  unfold dataset_path. rewrite Hjoin.
  now destruct (bool_decide (is_Some (namei w dataset_name))).
Qed.

(** X2.  When the cache directory is a directory, a relative dataset
    name is looked up from it name by name, dots included: the call is
    the local one exactly when that walk reaches an entry, so [..]
    reaches out of the cache directory. *)
Theorem X2_relative_name_walks_from_cache_dir self w dataset_name split q :
  namei w (local_cache_dir self) = Some q ->
  kind_at (w_fs w) q = Some Dir ->
  startswith_sep dataset_name = false ->
  library_calls
    (new_events (w_log w)
       (w_log (snd (snd (load_dataset dataset_name split (self, w))))))
  = [ if bool_decide (is_Some (walk (w_fs w) q (split_sep dataset_name)))
      then LoadArgs (os_path_join (local_cache_dir self) dataset_name) split None
      else LoadArgs dataset_name split (Some (local_cache_dir self)) ].
Proof.
  intros Hdir Hq Hrel. rewrite load_dataset_calls.
  unfold chosen_call, dataset_path, local_call, remote_call. unfold dataset_path.
  now rewrite (namei_join_relative w _ _ q Hdir Hq Hrel).
Qed.

(** X3.  With an absolute cache directory the choice between the two
    calls depends on the file system alone: two worlds with the same
    file system, whatever their working directories, hub states and
    logs, see the same call. *)
Theorem X3_choice_depends_on_file_system_only self (w1 w2 : world Hub)
    dataset_name split :
  startswith_sep (local_cache_dir self) = true ->
  w_fs w1 = w_fs w2 ->
  library_calls
    (new_events (w_log w1)
       (w_log (snd (snd (load_dataset dataset_name split (self, w1))))))
  = library_calls
      (new_events (w_log w2)
         (w_log (snd (snd (load_dataset dataset_name split (self, w2)))))).
Proof.
  intros Habs Hfs. rewrite !load_dataset_calls. unfold chosen_call, dataset_path.
  now rewrite (namei_absolute_fs w1 w2 _ (os_path_join_absolute _ dataset_name Habs) Hfs).
Qed.

(** X4.  A second call for the same dataset goes by what the first one
    left on disk, not by how it ended: if an entry is at the candidate
    path after the first call, returned or raised, the second call is
    the local one. *)
Theorem X4_second_call_goes_by_what_is_on_disk self w dataset_name split1 split2 :
  let st1 := snd (load_dataset dataset_name split1 (self, w)) in
  fst (os_path_exists (os_path_join (local_cache_dir self) dataset_name) (snd st1))
  = Return true ->
  library_calls
    (new_events (w_log (snd st1))
       (w_log (snd (snd (load_dataset dataset_name split2 st1)))))
  = [LoadArgs (os_path_join (local_cache_dir self) dataset_name) split2 None].
Proof.
  cbv zeta. intros Hexists.
  destruct (load_dataset_state self w dataset_name split1) as (Hself & _).
  destruct (snd (load_dataset dataset_name split1 (self, w))) as [self1 w1].
  cbn [fst snd] in *. subst self1.
  rewrite load_dataset_calls. unfold chosen_call, dataset_path.
  apply os_path_exists_true in Hexists.
  now rewrite (bool_decide_eq_true_2 _ Hexists).
Qed.

(** One call per request, in order. *)
Lemma load_datasets_calls requests : forall self w,
  exists added,
    w_log (snd (load_datasets requests (self, w))) = w_log w ++ added
    /\ Forall2 (fun call '(dataset_name, split) =>
                  call = local_call self dataset_name split
                  \/ call = remote_call self dataset_name split)
         (library_calls added) requests.
Proof.
  induction requests as [| [dataset_name split] requests IH]; intros self w.
  - exists []. cbn. rewrite app_nil_r. split; [reflexivity | constructor].
  - unfold load_datasets in *. cbn [fold_left].
    destruct (load_dataset_state self w dataset_name split) as (Hself & _).
    pose proof (load_dataset_calls self w dataset_name split) as Hcalls.
    destruct (load_dataset_log self w dataset_name split)
      as (line1 & line2 & after & Hlog & _).
    destruct (snd (load_dataset dataset_name split (self, w))) as [self1 w1].
    cbn [fst snd] in *. subst self1.
    destruct (IH self w1) as (added & Hlog' & Hall).
    rewrite Hlog in Hcalls. rewrite new_events_app in Hcalls.
    eexists. split; [rewrite Hlog', Hlog, <- app_assoc; reflexivity |].
    rewrite library_calls_app, Hcalls. constructor; [| exact Hall].
    unfold chosen_call. destruct (bool_decide _); [now left | now right].
Qed.

(** X5.  A caller that makes one request after another, going on after
    failures, makes the library be called exactly once per request, in
    the order of the requests, each time with the request's split and
    with either the candidate path or the dataset name: nothing is
    retried, skipped or remembered from one request to the next. *)
Theorem X5_one_library_call_per_request requests self w :
  Forall2 (fun call '(dataset_name, split) =>
             arg_split call = split
             /\ (call = LoadArgs (os_path_join (local_cache_dir self) dataset_name)
                          split None
                 \/ call = LoadArgs dataset_name split (Some (local_cache_dir self))))
    (library_calls
       (new_events (w_log w) (w_log (snd (load_datasets requests (self, w))))))
    requests.
Proof.
  destruct (load_datasets_calls requests self w) as (added & -> & Hall).
  rewrite new_events_app. eapply Forall2_impl; [exact Hall |].
  intros call [name spl] [-> | ->].
  - split; [reflexivity | now left].
  - split; [reflexivity | now right].
Qed.
End CandidatePath.

(** ** Further properties: construction *)

Lemma filter_agree {A} (P Q : A -> Prop) `{!forall x, Decision (P x)}
    `{!forall x, Decision (Q x)} (l : list A) :
  (forall x, x ∈ l -> P x <-> Q x) -> filter P l = filter Q l.
Proof.
  induction l as [| x l IH]; intros Hagree; [reflexivity |].
  assert (filter P l = filter Q l) as Htail.
  { apply IH. intros y Hy. apply Hagree. now right. }
  destruct (decide (P x)) as [HP | HP].
  - rewrite !filter_cons_True; [now rewrite Htail | | exact HP].
    apply Hagree; [left | exact HP].
  - rewrite !filter_cons_False; [exact Htail | | exact HP].
    intros HQ. apply HP, Hagree; [left | exact HQ].
Qed.

(** What lies below a directory has a longer path. *)
Lemma descents_longer (names : list string) : forall cur p,
  p ∈ descents cur names -> length cur < length p.
Proof.
  induction names as [| n names IH]; intros cur p; cbn [descents].
  - intros Hin. now apply not_elem_of_nil in Hin.
  - intros [-> | Hin]%elem_of_cons.
    + rewrite length_app. cbn. lia.
    + apply IH in Hin. rewrite length_app in Hin. cbn in Hin. lia.
Qed.

Lemma library_calls_made (dirs : list cpath) : library_calls (map MadeDir dirs) = [].
Proof. induction dirs as [| p dirs IH]; [reflexivity | exact IH]. Qed.

Lemma printed_lines_made (dirs : list cpath) : printed_lines (map MadeDir dirs) = [].
Proof. induction dirs as [| p dirs IH]; [reflexivity | exact IH]. Qed.

Section MakedirsLog.
Context {Hub : Type}.
Implicit Types (w : world Hub) (cur : cpath) (names : list string).

(** When [makedirs] returns it has made exactly the directories on the
    way that were missing, the shallowest first, and nothing else has
    happened. *)
Lemma makedirs_from_made name names : forall cur w w',
  Forall piece names ->
  makedirs_from name cur names w = (Return tt, w') ->
  let missing :=
    filter (fun p => kind_at (w_fs w) p = None)
           (descents cur (filter (fun n => n <> "") names)) in
  w_log w' = w_log w ++ map MadeDir missing
  /\ w_fs w' = foldl (fun fs p => <[p := Dir]> fs) (w_fs w) missing.
Proof.
  induction names as [| n names IH]; intros cur w w' Hall; cbv zeta.
  - intros [= <-]. cbn. now rewrite app_nil_r.
  - inversion Hall as [| ? ? Hn Hnames]; subst. destruct Hn as [-> | Hn].
    + rewrite makedirs_from_skip, filter_cons_False by (now intros ?).
      now apply IH.
    + rewrite (makedirs_from_enter _ _ _ _ _ Hn).
      pose proof Hn as (He & _). rewrite filter_cons_True by exact He.
      cbn [descents].
      destruct (kind_at (w_fs w) (cur ++ [n])) as [[] |] eqn:Hchild.
      * discriminate.
      * intros Hrun. rewrite filter_cons_False by (rewrite Hchild; discriminate).
        now apply IH.
      * intros Hrun. rewrite filter_cons_True by exact Hchild.
        apply IH in Hrun as (Hlog & Hfs); [| exact Hnames].
        cbn [w_log w_fs] in Hlog, Hfs.
        rewrite (filter_agree
                   (fun p => kind_at (<[cur ++ [n] := Dir]> (w_fs w)) p = None)
                   (fun p => kind_at (w_fs w) p = None)) in Hlog, Hfs.
        -- cbn [map foldl]. split; [| exact Hfs].
           now rewrite Hlog, <- app_assoc.
        -- intros p Hp. apply descents_longer in Hp.
           rewrite kind_at_insert_ne; [reflexivity |]. intros <-. lia.
        -- intros p Hp. apply descents_longer in Hp.
           rewrite kind_at_insert_ne; [reflexivity |]. intros <-. lia.
Qed.
(** Whatever [makedirs] does and however it ends, making directories
    is all it logs. *)
Lemma makedirs_from_log name names : forall cur w r w',
  makedirs_from name cur names w = (r, w') ->
  exists dirs, w_log w' = w_log w ++ map MadeDir dirs.
Proof.
  induction names as [| n names IH]; intros cur w r w'; cbn [makedirs_from].
  - intros [= <- <-]. exists []. cbn. now rewrite app_nil_r.
  - destruct (bool_decide (n = "") || bool_decide (n = ".")); [apply IH |].
    destruct (bool_decide (n = "..")); [apply IH |].
    unfold bind, gets, os_mkdir, modify, raise.
    destruct (kind_at (w_fs w) (cur ++ [n])) as [[] |].
    + intros [= <- <-]. exists []. cbn. now rewrite app_nil_r.
    + apply IH.
    + intros Hrun. apply IH in Hrun as (dirs & Hlog). cbn [w_log] in Hlog.
      exists ((cur ++ [n]) :: dirs). now rewrite Hlog, <- app_assoc.
Qed.
End MakedirsLog.

(** ** Further properties: the stored path *)

Lemma normpath_loop_skip (k : nat) (new_comps comps : list string) :
  normpath_loop k new_comps ("" :: comps) = normpath_loop k new_comps comps.
Proof. reflexivity. Qed.

(** Proper names are kept as they come. *)
Lemma normpath_loop_proper_names (k : nat) (comps : list string) : forall new_comps,
  Forall proper_name comps ->
  normpath_loop k new_comps comps = rev new_comps ++ comps.
Proof.
  induction comps as [| comp comps IH]; intros new_comps Hall; cbn [normpath_loop].
  - now rewrite app_nil_r.
  - inversion Hall as [| ? ? (He & Hd & Hdd & _) Hcomps]; subst.
    rewrite !bool_decide_eq_false_2 by assumption. cbn [orb negb].
    rewrite (IH _ Hcomps). cbn [rev]. now rewrite <- app_assoc.
Qed.

Lemma proper_name_head (n : string) :
  proper_name n -> exists c n', n = String c n' /\ c <> sep.
Proof.
  intros (He & _ & _ & Hsep). destruct n as [| c n']; [congruence |].
  exists c, n'. split; [reflexivity |]. cbn [has_sep] in Hsep.
  apply orb_false_iff in Hsep as [Hc _]. now apply bool_decide_eq_false in Hc.
Qed.

Lemma join_sep_head (comps : list string) :
  Forall proper_name comps -> comps <> [] ->
  exists c s, join_sep comps = String c s /\ c <> sep.
Proof.
  intros Hall Hne. destruct comps as [| n comps]; [congruence |].
  inversion Hall as [| ? ? Hn _]; subst.
  destruct (proper_name_head n Hn) as (c & n' & -> & Hc).
  destruct comps as [| n2 comps]; cbn [join_sep].
  - now exists c, n'.
  - rewrite string_app_cons. eauto.
Qed.

Lemma initial_slashes_normal (k : nat) (comps : list string) :
  k = 1 \/ k = 2 -> Forall proper_name comps ->
  initial_slashes (slashes_string k +:+ join_sep comps) = k.
Proof.
  intros Hk Hall. destruct (decide (comps = [])) as [-> | Hne].
  - now destruct Hk as [-> | ->].
  - destruct (join_sep_head comps Hall Hne) as (c & s & -> & Hc).
    pose proof (bool_decide_eq_false_2 _ Hc) as Hcb.
    destruct Hk as [-> | ->]; cbn [slashes_string].
    + rewrite string_app_cons, string_app_nil. cbn [initial_slashes].
      change (bool_decide (sep = sep)) with true. rewrite Hcb. now destruct s.
    + rewrite !string_app_cons, string_app_nil. cbn [initial_slashes].
      change (bool_decide (sep = sep)) with true. now rewrite Hcb.
Qed.

Lemma initial_slashes_range (path : string) :
  startswith_sep path = true -> initial_slashes path = 1 \/ initial_slashes path = 2.
Proof.
  destruct path as [| c1 [| c2 [| c3 path]]]; cbn; try discriminate;
    intros ->; repeat (destruct (bool_decide _)); cbn; auto.
Qed.

(** [normpath] leaves a path in normal form as it is. *)
Lemma os_path_normpath_normal (k : nat) (comps : list string) :
  k = 1 \/ k = 2 -> Forall proper_name comps ->
  os_path_normpath (slashes_string k +:+ join_sep comps)
  = slashes_string k +:+ join_sep comps.
Proof.
  intros Hk Hall. unfold os_path_normpath.
  assert (k <> 0) as Hk0 by (destruct Hk; lia).
  rewrite bool_decide_eq_false_2 by now apply slashes_string_nonempty.
  cbv zeta. rewrite (initial_slashes_normal _ _ Hk Hall), (split_sep_normal _ _ Hall).
  assert (normpath_loop k [] (replicate k "" ++ (if decide (comps = []) then [""] else comps))
          = comps) as ->.
  { assert (forall j rest, normpath_loop k [] (replicate j "" ++ rest)
                           = normpath_loop k [] rest) as Hskip.
    { intros j rest. induction j as [| j IH]; [reflexivity |].
      cbn [replicate app]. now rewrite normpath_loop_skip. }
    rewrite Hskip. destruct (decide (comps = [])) as [-> | _]; [reflexivity |].
    now rewrite (normpath_loop_proper_names _ _ _ Hall). }
  now rewrite bool_decide_eq_false_2 by now apply slashes_string_nonempty.
Qed.

(** [abspath] of what [abspath] returned changes nothing, in whatever
    working directory. *)
Lemma os_path_abspath_idempotent (cwd cwd' : list string) (path : string) :
  os_path_abspath cwd' (os_path_abspath cwd path) = os_path_abspath cwd path.
Proof.
  assert (exists k comps,
            (k = 1 \/ k = 2) /\ Forall proper_name comps
            /\ os_path_abspath cwd path = slashes_string k +:+ join_sep comps)
    as (k & comps & Hk & Hall & ->).
  { unfold os_path_abspath.
    set (p := if startswith_sep path then path else os_path_join (render_cwd cwd) path).
    assert (startswith_sep p = true) as Habs.
    { subst p. destruct (startswith_sep path) eqn:Hp; [exact Hp |].
      now apply os_path_join_absolute. }
    unfold os_path_normpath.
    rewrite bool_decide_eq_false_2 by now apply startswith_sep_nonempty.
    exists (initial_slashes p), (normpath_loop (initial_slashes p) [] (split_sep p)).
    split; [now apply initial_slashes_range |]. split.
    - apply normpath_loop_proper;
        [now apply initial_slashes_startswith | apply split_sep_no_sep | constructor].
    - cbv zeta. rewrite bool_decide_eq_false_2; [reflexivity |].
      apply slashes_string_nonempty. now apply initial_slashes_startswith. }
  unfold os_path_abspath at 1.
  assert (startswith_sep (slashes_string k +:+ join_sep comps) = true) as ->
    by (destruct Hk as [-> | ->]; reflexivity).
  now apply os_path_normpath_normal.
Qed.

Section ConstructionMore.
Context `{DatasetsLibrary}.
Implicit Types (self : DatasetLoader) (w : world Hub).

(** X6.  A construction that returns has made exactly the directories
    on the way to the cache directory that were missing, the shallowest
    first, and has done nothing else: no line is printed, the library
    is not called, and working directory and hub stay as they were. *)
Theorem X6_construction_makes_exactly_the_missing_directories path w self w' :
  new_DatasetLoader path w = (Return self, w') ->
  let missing :=
    filter (fun p => kind_at (w_fs w) p = None)
           (descents [] (components (os_path_abspath (w_cwd w) path))) in
  new_events (w_log w) (w_log w') = map MadeDir missing
  /\ w_fs w' = foldl (fun fs p => <[p := Dir]> fs) (w_fs w) missing
  /\ library_calls (new_events (w_log w) (w_log w')) = []
  /\ printed_lines (new_events (w_log w) (w_log w')) = []
  /\ w_cwd w' = w_cwd w /\ w_hub w' = w_hub w.
Proof.
  rewrite new_DatasetLoader_run. cbv zeta.
  destruct (os_path_abspath_pieces (w_cwd w) path) as (_ & Hpieces & _).
  destruct (makedirs_from _ _ _ w) as [[[] | e] w1] eqn:Hrun; [| discriminate].
  intros [= <- <-].
  destruct (makedirs_from_made _ _ _ _ _ Hpieces Hrun) as (Hlog & Hfs).
  destruct (makedirs_from_return _ _ [] w w1 Hpieces eq_refl Hrun)
    as (Hcwd & Hhub & _).
  fold (components (os_path_abspath (w_cwd w) path)) in Hlog, Hfs.
  rewrite Hlog, new_events_app.
  repeat split; try assumption;
    [apply library_calls_made | apply printed_lines_made].
Qed.


(** X8.  The path a loader holds is a fixed point of [abspath] in every
    working directory: a loader constructed from another loader's
    [local_cache_dir], anywhere, holds the same path, and constructing
    one right away changes nothing. *)
Theorem X8_stored_path_is_stable path w self w' :
  new_DatasetLoader path w = (Return self, w') ->
  (forall cwd, os_path_abspath cwd (local_cache_dir self) = local_cache_dir self)
  /\ (forall (w2 : world Hub) self2 w2',
        new_DatasetLoader (local_cache_dir self) w2 = (Return self2, w2') ->
        self2 = self)
  /\ new_DatasetLoader (local_cache_dir self) w' = (Return self, w').
Proof.
  rewrite new_DatasetLoader_run. cbv zeta.
  destruct (os_path_abspath_pieces (w_cwd w) path) as (Habs & Hpieces & _).
  destruct (makedirs_from _ _ _ w) as [[[] | e] w1] eqn:Hrun; [| discriminate].
  intros [= <- <-]. cbn [local_cache_dir].
  split; [intros cwd; apply os_path_abspath_idempotent |]. split.
  - intros w2 self2 w2'. rewrite new_DatasetLoader_run. cbv zeta.
    rewrite os_path_abspath_idempotent.
    destruct (makedirs_from _ _ _ w2) as [[[] | e2] w3]; [| discriminate].
    now intros [= <- _].
  - rewrite new_DatasetLoader_run. cbv zeta. rewrite os_path_abspath_idempotent.
    destruct (makedirs_from_return _ _ [] w w1 Hpieces eq_refl Hrun)
      as (_ & _ & _ & Hwalk & Hkind).
    now rewrite (makedirs_from_present _ _ _ _ _ Hpieces Hwalk Hkind).
Qed.
End ConstructionMore.

(** ** Further properties: what is raised and what the script does *)

Section Diagnostics.
Context `{DatasetsLibrary}.
Implicit Types (self : DatasetLoader) (w : world Hub).
Implicit Types (dataset_name split : string).

(** X9.  When the library raises an exception that a clause catches,
    what [load_dataset] raises is an object of the plain class of that
    clause, whatever subclass the library used, with the message of
    that clause built from dataset name and split alone and the
    library's exception as cause; the last line printed is the line of
    that clause, which quotes the library's message only in the clause
    for unexpected failures. *)
Theorem X9_raised_exception_and_last_line self w dataset_name split e k :
  library_outcome self w dataset_name split = Raise e ->
  classify e = Some k ->
  fst (load_dataset dataset_name split (self, w))
  = Raise (PyExc (Builtin (kind_class k)) (failure_message k dataset_name split) (Some e))
  /\ last (w_log (snd (snd (load_dataset dataset_name split (self, w)))))
     = Some (Printed (failure_line k dataset_name e)).
Proof.
  unfold library_outcome, chosen_call, classify. unfold_load_dataset.
  destruct (bool_decide (is_Some (namei w _)));
    cbn [w_log w_fs w_hub];
    destruct (datasets_load_dataset _ _) as [[d | e0] [fs' hub']];
    cbn [fst snd]; intros Hraise; try discriminate Hraise;
    injection Hraise as ->; case_clauses e; intros Hk; try discriminate Hk;
    injection Hk as <-; (split; [reflexivity | apply last_snoc]).
Qed.

(** X10.  The script calls the library at most once, for
    [EdinburghNLP/xsum] with split [test], and not at all when
    construction raises, in which case nothing is printed either; when
    the script returns, the library has returned a dataset to the one
    call and the last line printed is [str] of that dataset. *)
Theorem X10_script_loads_once_and_prints_the_dataset
    (str_dataset : Dataset -> string) w :
  let calls := library_calls (new_events (w_log w) (w_log (snd (main str_dataset w)))) in
  (calls = []
   \/ exists path cache_dir,
        calls = [LoadArgs path "test" cache_dir]
        /\ (path = "EdinburghNLP/xsum"
            \/ path = os_path_join
                        (os_path_abspath (w_cwd w) default_local_cache_dir)
                        "EdinburghNLP/xsum"))
  /\ (forall e w1,
        new_DatasetLoader default_local_cache_dir w = (Raise e, w1) ->
        fst (main str_dataset w) = Raise e
        /\ calls = []
        /\ printed_lines (new_events (w_log w) (w_log (snd (main str_dataset w)))) = [])
  /\ (fst (main str_dataset w) = Return tt ->
      exists loader w1 dataset,
        new_DatasetLoader default_local_cache_dir w = (Return loader, w1)
        /\ fst (load_dataset "EdinburghNLP/xsum" "test" (loader, w1)) = Return dataset
        /\ last (w_log (snd (main str_dataset w)))
           = Some (Printed (str_dataset dataset))).
Proof.
  cbv zeta. unfold main, call_method, bind, print, log_event, modify.
  destruct (new_DatasetLoader default_local_cache_dir w) as [[loader | e] w1] eqn:Hnew.
  - pose proof Hnew as Hrun. rewrite new_DatasetLoader_run in Hrun. cbv zeta in Hrun.
    destruct (makedirs_from _ _ _ w) as [[[] | e1] w1'] eqn:Hmk; [| discriminate].
    injection Hrun as <- <-.
    destruct (makedirs_from_log _ _ _ _ _ _ Hmk) as (dirs & Hlog1).
    pose proof (load_dataset_calls
                  {| local_cache_dir := os_path_abspath (w_cwd w) default_local_cache_dir |}
                  w1' "EdinburghNLP/xsum" "test") as Hcalls.
    destruct (load_dataset_log
                {| local_cache_dir := os_path_abspath (w_cwd w) default_local_cache_dir |}
                w1' "EdinburghNLP/xsum" "test")
      as (line1 & line2 & after & Hlog2 & _).
    rewrite Hlog2, new_events_app in Hcalls.
    set (added := [Printed line1; Printed line2; LibraryCall _] ++ after) in *.
    assert (exists path cache_dir,
              library_calls added = [LoadArgs path "test" cache_dir]
              /\ (path = "EdinburghNLP/xsum"
                  \/ path = os_path_join
                              (os_path_abspath (w_cwd w) default_local_cache_dir)
                              "EdinburghNLP/xsum")) as Hone.
    { rewrite Hcalls. unfold chosen_call, local_call, remote_call, dataset_path.
      cbn [local_cache_dir]. destruct (bool_decide _); eauto. }
    destruct (load_dataset "EdinburghNLP/xsum" "test" _)
      as [[dataset | e2] [self2 w2]] eqn:Hload;
      cbn [fst snd w_log] in *; rewrite Hlog2, Hlog1, <- !app_assoc, new_events_app;
      rewrite !library_calls_app, library_calls_made; cbn [app].
    + change (library_calls [Printed (str_dataset dataset)]) with (@nil load_args).
      rewrite app_nil_r. split; [now right |]. split; [discriminate |].
      intros _. eexists _, _, dataset. split; [reflexivity |].
      split; [now rewrite Hload |]. rewrite !app_assoc. apply last_snoc.
    + split; [now right |]. split; discriminate.
  - cbn [fst snd]. pose proof Hnew as Hrun.
    rewrite new_DatasetLoader_run in Hrun. cbv zeta in Hrun.
    destruct (makedirs_from _ _ _ w) as [[[] | e1] w1'] eqn:Hmk; [discriminate |].
    injection Hrun as <- <-.
    destruct (makedirs_from_log _ _ _ _ _ _ Hmk) as (dirs & Hlog).
    rewrite Hlog, new_events_app, library_calls_made.
    split; [now left |]. split; [| discriminate].
    intros e0 w0 [= <- <-]. repeat split. apply printed_lines_made.
Qed.
End Diagnostics.

(** ** Further properties: relative paths *)

(** Over pieces the loop of [normpath] keeps the names and drops the
    empty pieces. *)
Lemma normpath_loop_pieces (k : nat) (names : list string) : forall new_comps,
  Forall piece names ->
  normpath_loop k new_comps names = rev new_comps ++ filter (fun n => n <> "") names.
Proof.
  induction names as [| n names IH]; intros new_comps Hall; cbn [normpath_loop].
  - now rewrite filter_nil, app_nil_r.
  - inversion Hall as [| ? ? Hn Hnames]; subst. destruct Hn as [-> | Hn].
    + change (bool_decide ("" = "")) with true. cbn [orb].
      rewrite filter_cons_False by (now intros ?). now apply IH.
    + pose proof Hn as (He & Hd & Hdd & _).
      rewrite !bool_decide_eq_false_2 by assumption. cbn [orb negb].
      rewrite filter_cons_True by exact He.
      rewrite (IH _ Hnames). cbn [rev]. now rewrite <- app_assoc.
Qed.

Lemma filter_nonempty_proper (names : list string) :
  Forall proper_name names -> filter (fun n => n <> "") names = names.
Proof.
  induction 1 as [| n names (He & _) _ IH]; [reflexivity |].
  now rewrite filter_cons_True, IH by exact He.
Qed.

Lemma split_sep_join_pieces (names : list string) :
  Forall proper_name names ->
  Forall piece (split_sep (join_sep names))
  /\ filter (fun n => n <> "") (split_sep (join_sep names)) = names.
Proof.
  intros Hall. destruct (decide (names = [])) as [-> | Hne].
  - split; [repeat constructor; now left | reflexivity].
  - rewrite split_sep_join_sep; [| exact Hne |].
    + split; [| now apply filter_nonempty_proper].
      eapply Forall_impl; [exact Hall |]. intros n Hn. now right.
    + eapply Forall_impl; [exact Hall |]. now intros n (_ & _ & _ & Hn).
Qed.

Lemma startswith_sep_join_sep (names : list string) :
  Forall proper_name names -> startswith_sep (join_sep names) = false.
Proof.
  intros Hall. destruct (decide (names = [])) as [-> | Hne]; [reflexivity |].
  destruct (join_sep_head names Hall Hne) as (c & s & -> & Hc).
  cbn [startswith_sep]. now apply bool_decide_eq_false_2.
Qed.

(** One slash in front of nothing or of a name counts as one. *)
Lemma initial_slashes_one (s : string) :
  startswith_sep s = false -> initial_slashes (String sep s) = 1.
Proof.
  destruct s as [| c s]; [reflexivity |]. cbn [startswith_sep]. intros Hc.
  cbn [initial_slashes]. change (bool_decide (sep = sep)) with true.
  destruct s; now rewrite Hc.
Qed.

(** [abspath] puts a relative path of proper names under the working
    directory. *)
Lemma os_path_abspath_relative (cwd names : list string) :
  Forall proper_name cwd -> Forall proper_name names ->
  os_path_abspath cwd (join_sep names) = render_cwd (cwd ++ names).
Proof.
  intros Hcwd Hnames. unfold os_path_abspath.
  rewrite (startswith_sep_join_sep _ Hnames).
  destruct (os_path_join_relative (render_cwd cwd) (join_sep names))
    as (a0 & -> & Ha0); [discriminate | now apply startswith_sep_join_sep |].
  destruct (split_sep_join_pieces cwd Hcwd) as (Hpc & Hfc).
  destruct (split_sep_join_pieces names Hnames) as (Hpn & Hfn).
  assert (Forall piece (split_sep a0)
          /\ filter (fun n => n <> "") (split_sep a0) = cwd
          /\ exists s, a0 = String sep s
                       /\ startswith_sep (s +:+ String sep (join_sep names)) = false
                          \/ a0 = "" /\ cwd = []) as (Hpa & Hfa & Hhead).
  { unfold render_cwd in Ha0. destruct Ha0 as [[<- Hend] | Ha0].
    - change ("/" +:+ join_sep cwd) with (String sep (join_sep cwd)) in *.
      rewrite split_sep_sep. split; [constructor; [now left | exact Hpc] |].
      split; [rewrite filter_cons_False by (now intros ?); exact Hfc |].
      exists (join_sep cwd). left. split; [reflexivity |].
      destruct (decide (cwd = [])) as [-> | Hne]; [discriminate Hend |].
      destruct (join_sep_head cwd Hcwd Hne) as (c & s & -> & Hc).
      rewrite string_app_cons. cbn [startswith_sep]. now apply bool_decide_eq_false_2.
    - change ("/" +:+ join_sep cwd) with (String sep (join_sep cwd)) in Ha0.
      destruct a0 as [| c a0].
      + change ("" +:+ "/") with (String sep "") in Ha0. injection Ha0 as Hj.
        assert (cwd = []) as ->.
        { destruct (decide (cwd = [])) as [Hnil | Hne]; [exact Hnil |].
          destruct (join_sep_head cwd Hcwd Hne) as (c & s & Heq & _). congruence. }
        split; [repeat constructor; now left |]. split; [reflexivity |].
        exists "". now right.
      + rewrite string_app_cons in Ha0. injection Ha0 as <- Hj.
        assert (split_sep (join_sep cwd) = split_sep a0 ++ [""]) as Hsplit
          by now rewrite Hj, split_sep_trailing.
        rewrite split_sep_sep. rewrite Hsplit in Hpc, Hfc.
        apply Forall_app in Hpc as [Hpc _].
        rewrite filter_app in Hfc.
        rewrite (filter_cons_False _ "") in Hfc by (now intros ?).
        rewrite filter_nil, app_nil_r in Hfc.
        split; [constructor; [now left | exact Hpc] |].
        split; [rewrite filter_cons_False by (now intros ?); exact Hfc |].
        exists a0. left. split; [reflexivity |].
        destruct (decide (cwd = [])) as [-> | Hne].
        * destruct a0; discriminate Hj.
        * destruct (join_sep_head cwd Hcwd Hne) as (c & s & Heq & Hc).
          rewrite Heq in Hj. destruct a0 as [| c' a0].
          { change ("" +:+ "/") with (String sep "") in Hj.
            injection Hj as Hcsep _. congruence. }
          rewrite string_app_cons in Hj. injection Hj as -> _.
          rewrite string_app_cons. cbn [startswith_sep].
          now apply bool_decide_eq_false_2. }
  unfold os_path_normpath.
  rewrite bool_decide_eq_false_2 by now destruct a0.
  cbv zeta. rewrite split_sep_app_sep.
  rewrite normpath_loop_pieces by (apply Forall_app; now split).
  rewrite filter_app, Hfa, Hfn. cbn [rev app].
  assert (initial_slashes (a0 +:+ String sep (join_sep names)) = 1) as ->.
  { destruct Hhead as (s & [(-> & Hs) | (-> & ->)]).
    - rewrite string_app_cons. now apply initial_slashes_one.
    - rewrite string_app_nil. apply initial_slashes_one.
      now apply startswith_sep_join_sep. }
  reflexivity.
Qed.

Section RelativePath.
Context `{DatasetsLibrary}.
Implicit Types (self : DatasetLoader) (w : world Hub).

(** X11.  A relative path of proper names lands under the working
    directory: a loader constructed with it holds the path of the
    working directory followed by those names, and with the empty path
    the working directory itself. *)
Theorem X11_relative_path_is_under_the_working_directory names w self w' :
  Forall proper_name (w_cwd w) -> Forall proper_name names ->
  new_DatasetLoader (join_sep names) w = (Return self, w') ->
  local_cache_dir self = render_cwd (w_cwd w ++ names)
  /\ components (local_cache_dir self) = w_cwd w ++ names.
Proof.
  intros Hcwd Hnames. rewrite new_DatasetLoader_run. cbv zeta.
  rewrite (os_path_abspath_relative _ _ Hcwd Hnames).
  destruct (makedirs_from _ _ _ w) as [[[] | e] w1]; [| discriminate].
  intros [= <- <-]. cbn [local_cache_dir]. split; [reflexivity |].
  apply (components_normal 1). apply Forall_app. now split.
Qed.
End RelativePath.

(** ** Closed instances *)

(** C1 at work: [/data/squad] is a directory, so the one call is local. *)
Lemma C1_witness :
  fst (os_path_exists (os_path_join "/data" "squad") sample_world) = Return true
  /\ library_calls
       (new_events []
          (w_log (snd (snd (@load_dataset returning_library "squad" "test"
                              (data_loader, sample_world))))))
     = [LoadArgs "/data/squad" "test" None].
Proof.
  split; [reflexivity |].
  apply (@C1_existing_path_takes_local_branch returning_library
           data_loader sample_world "squad" "test").
  reflexivity.
Defined.

(** C2 at work: there is no [/data/xsum], so the one call is remote. *)
Lemma C2_witness :
  fst (os_path_exists (os_path_join "/data" "xsum") sample_world) = Return false
  /\ library_calls
       (new_events []
          (w_log (snd (snd (@load_dataset returning_library "xsum" "test"
                              (data_loader, sample_world))))))
     = [LoadArgs "xsum" "test" (Some "/data")].
Proof.
  split; [reflexivity |].
  apply (@C2_missing_path_takes_remote_branch returning_library
           data_loader sample_world "xsum" "test").
  reflexivity.
Defined.

(** C3 as the specification states it fails: a library call interrupted
    from the keyboard raises [KeyboardInterrupt], which no clause
    catches; what [load_dataset] raises is of none of the four kinds and
    has no cause. *)
Lemma C3_counterexample :
  ~ (forall e,
       @library_outcome interrupted_library data_loader sample_world "xsum" "test"
       = Raise e ->
       exists k e',
         fst (@load_dataset interrupted_library "xsum" "test"
                (data_loader, sample_world)) = Raise e'
         /\ kind_of_exc e' = Some k
         /\ exc_cause e' = Some e).
Proof.
  intros Hclaim.
  destruct (Hclaim keyboard_interrupt eq_refl) as (k & e' & Hraise & Hkind & _).
  vm_compute in Hraise. injection Hraise as <-. discriminate Hkind.
Qed.

(** C3 at work: an [EmptyDatasetError], a subclass of
    [FileNotFoundError], is re-raised as a not-found failure. *)
Lemma C3_witness :
  @library_outcome finding_nothing_library data_loader sample_world "squad" "test"
  = Raise empty_dataset_error
  /\ exists k e',
       classify empty_dataset_error = Some k
       /\ fst (@load_dataset finding_nothing_library "squad" "test"
                 (data_loader, sample_world)) = Raise e'
       /\ kind_of_exc e' = Some k
       /\ exc_cause e' = Some empty_dataset_error.
Proof.
  split; [reflexivity |].
  apply (@C3_exception_instances_are_classified finding_nothing_library
           data_loader sample_world "squad" "test" empty_dataset_error eq_refl).
  reflexivity.
Defined.

(** C4 as the specification states it fails: the [KeyboardInterrupt]
    that passes through has an empty message, which does not contain
    the dataset name. *)
Lemma C4_counterexample :
  ~ (forall e',
       fst (@load_dataset interrupted_library "xsum" "test"
              (data_loader, sample_world)) = Raise e' ->
       occurs_in "xsum" (exc_str e')).
Proof.
  intros Hclaim. apply (not_occurs_in_empty "xsum"); [discriminate |].
  apply (Hclaim keyboard_interrupt). reflexivity.
Qed.

(** C4 at work: a rejected split gives a message with name and split. *)
Lemma C4_witness :
  fst (@load_dataset rejecting_library "squad" "bogus" (data_loader, sample_world))
  = Raise (PyExc (Builtin ValueError) "Dataset 'squad' or split 'bogus' is invalid."
             (Some (new_exc ValueError "Unknown split")))
  /\ ((@library_outcome rejecting_library data_loader sample_world "squad" "bogus"
       = Raise (PyExc (Builtin ValueError)
                  "Dataset 'squad' or split 'bogus' is invalid."
                  (Some (new_exc ValueError "Unknown split")))
       /\ isinstance (PyExc (Builtin ValueError)
                        "Dataset 'squad' or split 'bogus' is invalid."
                        (Some (new_exc ValueError "Unknown split"))) Exception = false)
      \/ exists k,
           kind_of_exc (PyExc (Builtin ValueError)
                          "Dataset 'squad' or split 'bogus' is invalid."
                          (Some (new_exc ValueError "Unknown split"))) = Some k
           /\ occurs_in "squad" "Dataset 'squad' or split 'bogus' is invalid."
           /\ (k = InvalidArgument ->
               occurs_in "bogus" "Dataset 'squad' or split 'bogus' is invalid.")).
Proof.
  split; [reflexivity |].
  apply (@C4_wrapped_message_names_dataset rejecting_library
           data_loader sample_world "squad" "bogus").
  reflexivity.
Defined.

(** C8 as the specification states it fails: after a call that returns,
    the log ends with the call; no line is printed after it. *)
Lemma C8_counterexample :
  ~ (exists before args after line,
       new_events []
         (w_log (snd (snd (@load_dataset returning_library "squad" "test"
                             (data_loader, sample_world)))))
       = before ++ LibraryCall args :: after
       /\ Printed line ∈ after).
Proof.
  intros (before & args & after & line & Hlog & Hin).
  vm_compute in Hlog.
  destruct before as [| ev1 [| ev2 [| ev3 before]]]; try discriminate Hlog.
  - injection Hlog as _ _ _ <-. now apply not_elem_of_nil in Hin.
  - injection Hlog as _ _ _ Hrest. now destruct before.
Qed.

(** C10 at work: [/data/notes.txt] is a regular file; the call is local
    all the same, and the library's failure is the end of the run. *)
Lemma C10_witness :
  stat_kind sample_world (os_path_join "/data" "notes.txt") = Some File
  /\ library_calls
       (new_events []
          (w_log (snd (snd (@load_dataset finding_nothing_library "notes.txt" "test"
                              (data_loader, sample_world))))))
     = [LoadArgs "/data/notes.txt" "test" None]
  /\ exists e',
       fst (@load_dataset finding_nothing_library "notes.txt" "test"
              (data_loader, sample_world)) = Raise e'.
Proof.
  split; [reflexivity |].
  apply (@C10_any_entry_takes_local_branch finding_nothing_library
           data_loader sample_world "notes.txt" "test" File).
  reflexivity.
Defined.

(** C5 at work: in [/home/user], constructing with [cache/a] makes
    [/home/user/cache] and [/home/user/cache/a], and constructing again
    makes nothing. *)
Lemma C5_witness :
  let made := snd (@new_DatasetLoader returning_library "cache/a" sample_world) in
  @new_DatasetLoader returning_library "cache/a" sample_world
  = (Return {| local_cache_dir := "/home/user/cache/a" |}, made)
  /\ made_dirs (w_log made) = [["home"; "user"; "cache"]; ["home"; "user"; "cache"; "a"]]
  /\ stat_kind made "/home/user/cache/a" = Some Dir
  /\ @new_DatasetLoader returning_library "cache/a" made
     = (Return {| local_cache_dir := "/home/user/cache/a" |}, made).
Proof.
  cbv zeta.
  assert (@new_DatasetLoader returning_library "cache/a" sample_world
          = (Return {| local_cache_dir := "/home/user/cache/a" |},
             snd (@new_DatasetLoader returning_library "cache/a" sample_world)))
    as Hnew by (vm_compute; reflexivity).
  split; [exact Hnew |]. split; [vm_compute; reflexivity |].
  destruct (@C5_construction_makes_cache_dir returning_library "cache/a" sample_world)
    as (_ & _ & Hreturn & _).
  destruct (Hreturn _ _ Hnew) as (_ & Hdir & _ & _ & Hagain).
  split; [exact Hdir | exact Hagain].
Defined.

(** C9 at work: a loader constructed with [cache], asked for the empty
    name, loads [/home/user/cache/] locally. *)
Lemma C9_witness :
  let made := snd (@new_DatasetLoader returning_library "cache" sample_world) in
  let self := {| local_cache_dir := "/home/user/cache" |} in
  @new_DatasetLoader returning_library "cache" sample_world = (Return self, made)
  /\ namei made "/home/user/cache/" = namei made "/home/user/cache"
  /\ library_calls
       (new_events (w_log made)
          (w_log (snd (snd (@load_dataset returning_library "" "test" (self, made))))))
     = [LoadArgs "/home/user/cache/" "test" None].
Proof.
  cbv zeta.
  assert (@new_DatasetLoader returning_library "cache" sample_world
          = (Return {| local_cache_dir := "/home/user/cache" |},
             snd (@new_DatasetLoader returning_library "cache" sample_world)))
    as Hnew by (vm_compute; reflexivity).
  split; [exact Hnew |].
  destruct (@C9_empty_name_takes_local_branch returning_library
              "cache" sample_world _ _ "test" Hnew) as (Hdir & Hany).
  exact (Hany _ Hdir).
Defined.

(** ** Closed instances of the further properties *)

(** X1 at work: the name [/home/user] lies outside the cache directory
    [/data] and is loaded locally all the same. *)
Lemma X1_witness :
  startswith_sep "/home/user" = true
  /\ library_calls
       (new_events []
          (w_log (snd (snd (@load_dataset returning_library "/home/user" "test"
                              (data_loader, sample_world))))))
     = [LoadArgs "/home/user" "test" None].
Proof.
  split; [reflexivity |].
  apply (@X1_absolute_name_ignores_cache_dir returning_library
           data_loader sample_world "/home/user" "test").
  reflexivity.
Defined.

(** X2 at work: from [/data] the name [..] leads to the root, an entry,
    so the call is local, with path [/data/..]. *)
Lemma X2_witness :
  namei sample_world "/data" = Some ["data"]
  /\ walk sample_fs ["data"] (split_sep "..") = Some []
  /\ library_calls
       (new_events []
          (w_log (snd (snd (@load_dataset returning_library ".." "test"
                              (data_loader, sample_world))))))
     = [LoadArgs "/data/.." "test" None].
Proof.
  split; [reflexivity |]. split; [reflexivity |].
  apply (@X2_relative_name_walks_from_cache_dir returning_library
           data_loader sample_world ".." "test" ["data"]); reflexivity.
Defined.

(** X3 at work: the same file system seen from the root, with a line
    already in the log. *)
Lemma X3_witness :
  library_calls
    (new_events []
       (w_log (snd (snd (@load_dataset returning_library "squad" "test"
                           (data_loader, sample_world))))))
  = library_calls
      (new_events [Printed "earlier"]
         (w_log (snd (snd (@load_dataset returning_library "squad" "test"
                             (data_loader,
                              World [] sample_fs tt [Printed "earlier"])))))).
Proof.
  apply (@X3_choice_depends_on_file_system_only returning_library data_loader
           sample_world (World [] sample_fs tt [Printed "earlier"]) "squad" "test");
    reflexivity.
Defined.

(** X4 at work: the first download of [xsum] breaks off and leaves
    [/data/xsum]; the second call loads that directory locally. *)
Lemma X4_witness :
  fst (@load_dataset breaking_off_library "xsum" "test" (data_loader, sample_world))
  = Raise (PyExc (Builtin ConnectionError)
             "Failed to download dataset 'xsum' due to connectivity issues."
             (Some (new_exc ConnectionError "Connection broken")))
  /\ library_calls
       (new_events
          (w_log (snd (snd (@load_dataset breaking_off_library "xsum" "test"
                              (data_loader, sample_world)))))
          (w_log (snd (snd (@load_dataset breaking_off_library "xsum" "train"
                              (snd (@load_dataset breaking_off_library "xsum" "test"
                                      (data_loader, sample_world))))))))
     = [LoadArgs "/data/xsum" "train" None].
Proof.
  split; [reflexivity |].
  apply (@X4_second_call_goes_by_what_is_on_disk breaking_off_library
           data_loader sample_world "xsum" "test" "train").
  reflexivity.
Defined.

(** X6 at work: of the four directories on the way to
    [/home/user/cache/a] the two missing ones are made. *)
Lemma X6_witness :
  let made := snd (@new_DatasetLoader returning_library "cache/a" sample_world) in
  new_events [] (w_log made)
  = [MadeDir ["home"; "user"; "cache"]; MadeDir ["home"; "user"; "cache"; "a"]]
  /\ w_fs made
     = <[ ["home"; "user"; "cache"; "a"] := Dir ]>
         (<[ ["home"; "user"; "cache"] := Dir ]> sample_fs).
Proof.
  cbv zeta.
  assert (@new_DatasetLoader returning_library "cache/a" sample_world
          = (Return {| local_cache_dir := "/home/user/cache/a" |},
             snd (@new_DatasetLoader returning_library "cache/a" sample_world)))
    as Hnew by (vm_compute; reflexivity).
  destruct (@X6_construction_makes_exactly_the_missing_directories
              returning_library "cache/a" sample_world _ _ Hnew)
    as (Hlog & Hfs & _).
  split; [exact Hlog | exact Hfs].
Defined.


(** X8 at work: a loader made with [cache] in [/home/user] holds
    [/home/user/cache], and that path read from the root is itself. *)
Lemma X8_witness :
  os_path_abspath [] "/home/user/cache" = "/home/user/cache"
  /\ @new_DatasetLoader returning_library "/home/user/cache"
       (snd (@new_DatasetLoader returning_library "cache" sample_world))
     = (Return {| local_cache_dir := "/home/user/cache" |},
        snd (@new_DatasetLoader returning_library "cache" sample_world)).
Proof.
  assert (@new_DatasetLoader returning_library "cache" sample_world
          = (Return {| local_cache_dir := "/home/user/cache" |},
             snd (@new_DatasetLoader returning_library "cache" sample_world)))
    as Hnew by (vm_compute; reflexivity).
  destruct (@X8_stored_path_is_stable returning_library "cache" sample_world _ _ Hnew)
    as (Hfixed & _ & Hagain).
  split; [exact (Hfixed []) | exact Hagain].
Defined.

(** X9 at work: a [ConnectionResetError] comes out as a plain
    [ConnectionError], and the last line is the one of line 58. *)
Lemma X9_witness :
  fst (@load_dataset resetting_library "xsum" "test" (data_loader, sample_world))
  = Raise (PyExc (Builtin ConnectionError)
             "Failed to download dataset 'xsum' due to connectivity issues."
             (Some (new_exc ConnectionResetError "Connection reset by peer")))
  /\ last (w_log (snd (snd (@load_dataset resetting_library "xsum" "test"
                              (data_loader, sample_world)))))
     = Some (Printed "Error: Unable to connect to Hugging Face Hub to download 'xsum'.").
Proof.
  apply (@X9_raised_exception_and_last_line resetting_library data_loader
           sample_world "xsum" "test"
           (new_exc ConnectionResetError "Connection reset by peer") Connectivity);
    reflexivity.
Defined.

(** X11 at work: [cache/a] in [/home/user]. *)
Lemma X11_witness :
  let made := @new_DatasetLoader returning_library "cache/a" sample_world in
  fst made = Return {| local_cache_dir := "/home/user/cache/a" |}
  /\ components "/home/user/cache/a" = ["home"; "user"; "cache"; "a"].
Proof.
  cbv zeta.
  assert (@new_DatasetLoader returning_library (join_sep ["cache"; "a"]) sample_world
          = (Return {| local_cache_dir := "/home/user/cache/a" |},
             snd (@new_DatasetLoader returning_library "cache/a" sample_world)))
    as Hnew by (vm_compute; reflexivity).
  assert (Forall proper_name ["home"; "user"]) as Hcwd
    by (repeat constructor; discriminate).
  assert (Forall proper_name ["cache"; "a"]) as Hnames
    by (repeat constructor; discriminate).
  destruct (@X11_relative_path_is_under_the_working_directory returning_library
              ["cache"; "a"] sample_world _ _ Hcwd Hnames Hnew) as (_ & Hcomps).
  split; [reflexivity | exact Hcomps].
Defined.
